(** * Temporal lineage graph traversal: a shallow embedding of
      [lens/lineage/repository.py], [models.py] and [schemas.py].

    The repository keeps nodes and temporally versioned edges in
    relational tables and builds a recursive common table expression to
    answer ancestry / descendancy questions.  The tables are modelled as
    lists of rows, the statements by their relational meaning, and the
    session (the database handle, the wall clock and the statements sent so
    far) by a small state-and-exception monad.  A statement is a Python
    object first: the lookups made while it is put together are modelled as
    they are evaluated, before anything is sent.  Where a statement has no
    [ORDER BY] the rows are listed in the order of the table; SQL leaves
    that order open, and no statement below depends on it. *)

From Stdlib Require Import ZArith Lia.
From stdpp Require Import base tactics option list sorting gmap strings.

Local Open Scope Z_scope.

(** ** Data model ([models.py]) *)

(** Primary keys are UUIDs; only their identity matters. *)
Definition UUID := positive.
Bind Scope positive_scope with UUID.

(** [datetime] values, ordered as instants. *)
Definition datetime := Z.

(** JSONB dictionaries are opaque to the repository. *)
Definition json := list (string * string).

Inductive NodeType :=
  | SOURCE_TABLE | STAGE_TABLE | FEATURE_TABLE | DIMENSION_TABLE | FACT_TABLE
  | VIEW | MATERIALIZED_VIEW
  | FILE | DATASET_FILE
  | TOPIC | STREAM
  | DASHBOARD | REPORT | CHART | METRIC
  | MODEL | FEATURE_SET | EXPERIMENT
  | PIPELINE | PIPELINE_RUN | JOB | NOTEBOOK | QUERY
  | API_ENDPOINT | SERVICE
  | PERSON | TEAM | POLICY | SCHEMA.

Inductive EdgeType :=
  | READ | WRITE | TRANSFORM | DERIVE | COPY
  | COLUMN_DERIVES_FROM | COLUMN_PASSES_THROUGH
  | CONSUMES | FEEDS | DEPENDS_ON
  | EXECUTES | PRODUCES
  | OWNS | STEWARDS | HAS_POLICY | GOVERNED_BY
  | MEMBER_OF | REPORTS_TO.

Inductive DataClassification :=
  | PUBLIC | INTERNAL | CONFIDENTIAL | RESTRICTED | PII | PHI | PCI.

#[global] Instance NodeType_eq_dec : EqDecision NodeType.
Proof. solve_decision. Defined.
#[global] Instance EdgeType_eq_dec : EqDecision EdgeType.
Proof. solve_decision. Defined.
#[global] Instance DataClassification_eq_dec : EqDecision DataClassification.
Proof. solve_decision. Defined.

Module LineageNode.
Record t := mk {
  id : UUID;
  type : NodeType;
  name : string;
  qualified_name : option string;
  description : option string;
  documentation_url : option string;
  system : option string;
  platform : option string;
  location : option string;
  classification : option DataClassification;
  tags : option json;
  attributes : option json;
  created_at : datetime;
  updated_at : datetime;
  deleted_at : option datetime
}.
End LineageNode.

Module LineageEdge.
Record t := mk {
  id : UUID;
  source_id : UUID;
  target_id : UUID;
  edge_type : EdgeType;
  metadata_ : option json;
  valid_from : datetime;
  valid_to : option datetime;
  created_at : datetime;
  created_by : option string
}.
End LineageEdge.

Module ColumnLineage.
Record t := mk {
  id : UUID;
  edge_id : UUID;
  source_column : string;
  target_column : string;
  transformation : option string;
  transformation_type : option string;
  confidence : option Z;      (* opaque to the repository *)
  metadata_ : option json;
  created_at : datetime
}.
End ColumnLineage.

Module LineageRun.
Record t := mk {
  id : UUID;
  node_id : option UUID;
  run_id : string;
  pipeline_name : string;
  status : string;
  started_at : datetime;
  completed_at : option datetime;
  git_sha : option string;
  git_branch : option string;
  environment : option string;
  parameters : option json;
  triggered_by : option string;
  executor : option string;
  metrics : option json;
  error_message : option string;
  created_at : datetime
}.
End LineageRun.

(** ** Response schemas ([schemas.py]) *)

Module LineageQueryParams.
Record t := mk {
  dataset_id : option UUID;
  dataset_name : option string;
  direction : string;
  depth : Z;
  as_of : option datetime;
  include_deleted : bool;
  edge_types : option (list EdgeType)
}.
End LineageQueryParams.

Module LineageGraphNode.
Record t := mk {
  id : UUID;
  type : NodeType;
  name : string;
  qualified_name : option string;
  classification : option DataClassification;
  attributes : json;
  depth : Z
}.
End LineageGraphNode.

Module LineageGraphEdge.
Record t := mk {
  id : UUID;
  source_id : UUID;
  target_id : UUID;
  edge_type : EdgeType;
  metadata : json
}.
End LineageGraphEdge.

Module LineageGraphResponse.
Record t := mk {
  query : LineageQueryParams.t;
  nodes : list LineageGraphNode.t;
  edges : list LineageGraphEdge.t;
  node_count : nat;
  edge_count : nat
}.
End LineageGraphResponse.

#[global] Instance LineageGraphEdge_eq_dec : EqDecision LineageGraphEdge.t.
Proof. solve_decision. Defined.
#[global] Instance LineageGraphNode_eq_dec : EqDecision LineageGraphNode.t.
Proof. solve_decision. Defined.

(** Python's [x or {}] on an optional dictionary. *)
Definition or_empty (j : option json) : json := default [] j.

(** ** The session: database, clock and statement log *)

Inductive TraversalDirection := Upstream | Downstream.

(** What [session.execute] was asked to run. *)
Inductive Stmt :=
  | SelectLineageGraph (d : TraversalDirection)
  | SelectNodes
  | SelectNodeBy
  | SelectEdgeById
  | SelectColumnsByEdge
  | SelectRunByRunId
  | Commit
  | Refresh.

Record Store := mkStore {
  lineage_nodes : list LineageNode.t;
  lineage_edges : list LineageEdge.t;
  column_lineage : list ColumnLineage.t;
  lineage_runs : list LineageRun.t
}.

Record Session := mkSession {
  db : Store;
  executed : list Stmt;         (* statements sent to the store, oldest first *)
  wall_clock : nat → datetime;  (* the k-th reading of [datetime.utcnow()] *)
  clock_reads : nat
}.

Inductive Exn :=
  | ValidationError (fields : list string)   (* pydantic *)
  | MultipleResultsFound                     (* [scalar_one_or_none] *)
  | IntegrityError                           (* a row the tables refuse *)
  | AttributeError                           (* a name an object does not have *)
  | DBAPIError.                              (* a parameter the driver cannot bind *)

Inductive Result (A : Type) :=
  | Return (a : A)
  | Raise (e : Exn)
  | Unfinished.
Arguments Return {A} a.
Arguments Raise {A} e.
Arguments Unfinished {A}.

Definition Async (A : Type) : Type := Session → Result A * Session.

Definition pure {A} (a : A) : Async A := λ s, (Return a, s).
Definition raise {A} (e : Exn) : Async A := λ s, (Raise e, s).
Definition await {A B} (c : Async A) (k : A → Async B) : Async B :=
  λ s, match c s with
       | (Return a, s') => k a s'
       | (Raise e, s') => (Raise e, s')
       | (Unfinished, s') => (Unfinished, s')
       end.

Notation "'let*' x ':=' c 'in' k" := (await c (λ x, k))
  (at level 10, x name, c at level 100, k at level 200).

Definition utcnow : Async datetime :=
  λ s, (Return (wall_clock s (clock_reads s)),
        mkSession (db s) (executed s) (wall_clock s) (S (clock_reads s))).

(** [await self.session.execute(stmt)]: the statement is logged and its
    relational meaning [q] is evaluated on the current tables; [None] stands
    for an evaluation that was cut off. *)
Definition session_execute {A} (stmt : Stmt) (q : Store → option A) : Async A :=
  λ s, let s' := mkSession (db s) (executed s ++ [stmt]) (wall_clock s) (clock_reads s) in
       match q (db s) with
       | Some a => (Return a, s')
       | None => (Unfinished, s')
       end.

(** ** Temporal predicate and edge-type filter *)

(** [and_(valid_from <= timestamp, or_(valid_to.is_(None), valid_to > timestamp))] *)
Definition temporal_filter (timestamp : datetime) (e : LineageEdge.t) : bool :=
  (LineageEdge.valid_from e <=? timestamp)
  && match LineageEdge.valid_to e with
     | None => true
     | Some t => t >? timestamp
     end.

(** [edge_type_filter]: empty unless [edge_types] is a non-empty list, in
    which case it is [[LineageEdge.edge_type.in_(edge_types)]]. *)
Definition edge_type_filter (edge_types : option (list EdgeType)) (e : LineageEdge.t) : bool :=
  match edge_types with
  | None | Some [] => true
  | Some ts => bool_decide (LineageEdge.edge_type e ∈ ts)
  end.

(** ** The recursive CTE [lineage_graph] *)

(** The columns of the CTE, under the keys of its column collection: the
    labels given in the select list ([node_id], [edge_id], [depth]) and, for
    the columns selected through the model, the names of the mapped
    attributes; [models.py] maps the attribute [metadata_] to the column
    named [metadata]. *)
Module Cte.
Record row := mk {
  node_id : UUID;
  edge_id : UUID;
  source_id : UUID;
  target_id : UUID;
  edge_type : EdgeType;
  metadata_ : option json;
  depth : Z
}.

Definition columns : list string :=
  ["node_id"; "edge_id"; "source_id"; "target_id"; "edge_type"; "metadata_"; "depth"].
End Cte.

(** Rows of the outer [SELECT DISTINCT] over the CTE. *)
Module EdgeRow.
Record t := mk {
  edge_id : UUID;
  source_id : UUID;
  target_id : UUID;
  edge_type : EdgeType;
  metadata : option json
}.
End EdgeRow.

#[global] Instance EdgeRow_eq_dec : EqDecision EdgeRow.t.
Proof. solve_decision. Defined.

Definition project (r : Cte.row) : EdgeRow.t :=
  EdgeRow.mk (Cte.edge_id r) (Cte.source_id r) (Cte.target_id r)
             (Cte.edge_type r) (Cte.metadata_ r).

(** The end of an edge the traversal comes from and the end it walks to:
    upstream joins on [target_id] and labels [source_id] as [node_id],
    downstream the other way round. *)
Definition near_end (d : TraversalDirection) (e : LineageEdge.t) : UUID :=
  match d with
  | Upstream => LineageEdge.target_id e
  | Downstream => LineageEdge.source_id e
  end.

Definition far_end (d : TraversalDirection) (e : LineageEdge.t) : UUID :=
  match d with
  | Upstream => LineageEdge.source_id e
  | Downstream => LineageEdge.target_id e
  end.

Definition select_row (d : TraversalDirection) (e : LineageEdge.t) (depth : Z) : Cte.row :=
  Cte.mk (far_end d e) (LineageEdge.id e) (LineageEdge.source_id e)
         (LineageEdge.target_id e) (LineageEdge.edge_type e)
         (LineageEdge.metadata_ e) depth.

Section Traversal.
Variable d : TraversalDirection.
Variable node_id : UUID.
Variable depth : Z.
Variable timestamp : datetime.
Variable edge_types : option (list EdgeType).

(** WHERE clause of the non-recursive term. *)
Definition base_where (e : LineageEdge.t) : bool :=
  bool_decide (near_end d e = node_id)
  && temporal_filter timestamp e
  && edge_type_filter edge_types e.

Definition cte_base (edges : list LineageEdge.t) : list Cte.row :=
  e ← edges; if base_where e then [select_row d e 1] else [].

(** JOIN condition and WHERE clause of the recursive term. *)
Definition recursive_where (e : LineageEdge.t) (r : Cte.row) : bool :=
  bool_decide (near_end d e = Cte.node_id r)
  && (Cte.depth r <? depth)
  && temporal_filter timestamp e
  && edge_type_filter edge_types e.

Definition cte_recursive (edges : list LineageEdge.t) (working : list Cte.row) : list Cte.row :=
  e ← edges; r ← working;
  if recursive_where e r then [select_row d e (Cte.depth r + 1)] else [].

(** [WITH RECURSIVE ... UNION ALL]: the recursive term is evaluated on the
    rows of the previous round until a round produces no row.  [fuel] bounds
    the number of rounds the evaluator is granted; [None] is an evaluation
    that has not ended within them. *)
Fixpoint with_recursive (fuel : nat) (edges : list LineageEdge.t)
    (working : list Cte.row) : option (list Cte.row) :=
  match working with
  | [] => Some []
  | _ :: _ =>
      match fuel with
      | O => None
      | S fuel' => (working ++.) <$> with_recursive fuel' edges (cte_recursive edges working)
      end
  end.

Definition lineage_graph (fuel : nat) (edges : list LineageEdge.t) : option (list Cte.row) :=
  with_recursive fuel edges (cte_base edges).

(** What a [SELECT DISTINCT] of the five edge columns of the CTE yields.
    The rows are listed in the order of first occurrence; the store is free
    to return them in any order. *)
Definition edges_stmt (fuel : nat) (s : Store) : option (list EdgeRow.t) :=
  (λ rows, remove_dups (project <$> rows)) <$> lineage_graph fuel (lineage_edges s).
End Traversal.

(** [cte.c.<name>]: the column of the CTE under that key; a key the
    collection does not hold is an [AttributeError]. *)
Definition cte_c (name : string) : Async string :=
  if bool_decide (name ∈ Cte.columns) then pure name else raise AttributeError.

(** [select(cte.c.edge_id, cte.c.source_id, cte.c.target_id,
    cte.c.edge_type, cte.c.metadata).distinct()]: the arguments are
    evaluated from left to right while the statement is put together. *)
Definition select_edge_columns : Async (list string) :=
  let* edge_id := cte_c "edge_id" in
  let* source_id := cte_c "source_id" in
  let* target_id := cte_c "target_id" in
  let* edge_type := cte_c "edge_type" in
  let* metadata := cte_c "metadata" in
  pure [edge_id; source_id; target_id; edge_type; metadata].

(** The values an [Integer] parameter can be bound to. *)
Definition int4 (z : Z) : bool := (-2147483648 <=? z) && (z <=? 2147483647).

(** [await self.session.execute(stmt)] for a statement holding [depth] as
    an [Integer] parameter: the driver refuses a value out of range when the
    statement is sent. *)
Definition session_execute_bound {A} (stmt : Stmt) (depth : Z) (q : Store → option A)
    : Async A :=
  if int4 depth then session_execute stmt q
  else λ s, (Raise DBAPIError,
             mkSession (db s) (executed s ++ [stmt]) (wall_clock s) (clock_reads s)).

(** [node_ids = {node_id}] followed by the loop adding both ends of every
    edge row. *)
Definition collect_node_ids (node_id : UUID) (edges_data : list EdgeRow.t) : gset UUID :=
  foldl (λ ids edge, ids ∪ {[EdgeRow.source_id edge]} ∪ {[EdgeRow.target_id edge]})
        {[node_id]} edges_data.

(** [node_conditions]: [LineageNode.id.in_(node_ids)], and
    [LineageNode.deleted_at.is_(None)] unless [include_deleted]. *)
Definition node_conditions (node_ids : gset UUID) (include_deleted : bool)
    (n : LineageNode.t) : bool :=
  bool_decide (LineageNode.id n ∈ node_ids)
  && (if include_deleted then true else bool_decide (LineageNode.deleted_at n = None)).

Definition nodes_stmt (node_ids : gset UUID) (include_deleted : bool) (s : Store)
    : list LineageNode.t :=
  filter (λ n, node_conditions node_ids include_deleted n) (lineage_nodes s).

Definition graph_node (node : LineageNode.t) : LineageGraphNode.t :=
  LineageGraphNode.mk (LineageNode.id node) (LineageNode.type node)
    (LineageNode.name node) (LineageNode.qualified_name node)
    (LineageNode.classification node) (or_empty (LineageNode.attributes node))
    0.  (* TODO: Add depth from CTE *)

Definition graph_edge (edge : EdgeRow.t) : LineageGraphEdge.t :=
  LineageGraphEdge.mk (EdgeRow.edge_id edge) (EdgeRow.source_id edge)
    (EdgeRow.target_id edge) (EdgeRow.edge_type edge) (or_empty (EdgeRow.metadata edge)).

(** ** [LineageQueryParams(...)]: pydantic field validation *)

Definition direction_pattern (direction : string) : bool :=
  bool_decide (direction = "upstream")
  || bool_decide (direction = "downstream")
  || bool_decide (direction = "both").

Definition depth_in_range (depth : Z) : bool := (1 <=? depth) && (depth <=? 10).

Definition new_LineageQueryParams (dataset_id : UUID) (direction : string) (depth : Z)
    (as_of : option datetime) (edge_types : option (list EdgeType))
    : Async LineageQueryParams.t :=
  let errors :=
    (if direction_pattern direction then [] else ["direction"])
    ++ (if depth_in_range depth then [] else ["depth"]) in
  match errors with
  | [] => pure (LineageQueryParams.mk (Some dataset_id) None direction depth as_of
                  false edge_types)
  | _ :: _ => raise (ValidationError errors)
  end.

(** ** Python dictionaries built by a comprehension *)

Section Dict.
Context {K V : Type} `{EqDecision K}.

(** [d[k] = v]: an existing key keeps its position and takes the new
    value, a new key goes last. *)
Fixpoint dict_setitem (k : K) (v : V) (d : list (K * V)) : list (K * V) :=
  match d with
  | [] => [(k, v)]
  | (k', v') :: d' =>
      if decide (k = k') then (k, v) :: d' else (k', v') :: dict_setitem k v d'
  end.

(** [{key(x): x for x in l}] *)
Definition dict_comprehension (key : V → K) (l : list V) : list (K * V) :=
  foldl (λ d x, dict_setitem (key x) x d) [] l.

Definition dict_values (d : list (K * V)) : list V := d.*2.
Definition dict_keys (d : list (K * V)) : list K := d.*1.
Fixpoint dict_get (k : K) (d : list (K * V)) : option V :=
  match d with
  | [] => None
  | (k', v) :: d' => if decide (k = k') then Some v else dict_get k d'
  end.
End Dict.

(** ** Graph traversal operations *)

Definition direction_name (d : TraversalDirection) : string :=
  match d with Upstream => "upstream" | Downstream => "downstream" end.

(** [timestamp = as_of or datetime.utcnow()] *)
Definition as_of_or_now (as_of : option datetime) : Async datetime :=
  match as_of with
  | Some t => pure t
  | None => utcnow
  end.

(** The [upstream] and [downstream] branches of [_traverse_graph] together
    with the common tail of the function.  [get_upstream] and
    [get_downstream] call [_traverse_graph] with a fixed direction string and
    so always run this part; it is named on its own to cut the mutual call
    between [_traverse_graph] and the two.  The steps are those of the
    source, in its order: the timestamp, the CTE, the select list of the
    edge statement, its execution, the node statement, the response. *)
Definition traverse_directed (fuel : nat) (d : TraversalDirection) (node_id : UUID)
    (depth : Z) (as_of : option datetime) (edge_types : option (list EdgeType))
    (include_deleted : bool) : Async LineageGraphResponse.t :=
  let* timestamp := as_of_or_now as_of in
  (* [cte_base], [cte_recursive] and their union are statement objects *)
  let* _ := select_edge_columns in
  let* edges_data :=
    session_execute_bound (SelectLineageGraph d) depth
      (edges_stmt d node_id depth timestamp edge_types fuel) in
  let node_ids := collect_node_ids node_id edges_data in
  let* nodes :=
    session_execute SelectNodes (λ s, Some (nodes_stmt node_ids include_deleted s)) in
  let graph_nodes := graph_node <$> nodes in
  let graph_edges := graph_edge <$> edges_data in
  let* query := new_LineageQueryParams node_id (direction_name d) depth as_of edge_types in
  pure (LineageGraphResponse.mk query graph_nodes graph_edges
          (length graph_nodes) (length graph_edges)).

Definition get_upstream (fuel : nat) (node_id : UUID) (depth : Z)
    (as_of : option datetime) (edge_types : option (list EdgeType))
    (include_deleted : bool) : Async LineageGraphResponse.t :=
  traverse_directed fuel Upstream node_id depth as_of edge_types include_deleted.

Definition get_downstream (fuel : nat) (node_id : UUID) (depth : Z)
    (as_of : option datetime) (edge_types : option (list EdgeType))
    (include_deleted : bool) : Async LineageGraphResponse.t :=
  traverse_directed fuel Downstream node_id depth as_of edge_types include_deleted.

(** The merge of the [else] branch. *)
Definition merge_results (query : LineageQueryParams.t)
    (upstream downstream : LineageGraphResponse.t) : LineageGraphResponse.t :=
  let all_nodes :=
    dict_comprehension LineageGraphNode.id
      (LineageGraphResponse.nodes upstream ++ LineageGraphResponse.nodes downstream) in
  let all_edges :=
    dict_comprehension LineageGraphEdge.id
      (LineageGraphResponse.edges upstream ++ LineageGraphResponse.edges downstream) in
  LineageGraphResponse.mk query (dict_values all_nodes) (dict_values all_edges)
    (length all_nodes) (length all_edges).

Definition _traverse_graph (fuel : nat) (node_id : UUID) (direction : string) (depth : Z)
    (as_of : option datetime) (edge_types : option (list EdgeType))
    (include_deleted : bool) : Async LineageGraphResponse.t :=
  if decide (direction = "upstream") then
    traverse_directed fuel Upstream node_id depth as_of edge_types include_deleted
  else if decide (direction = "downstream") then
    traverse_directed fuel Downstream node_id depth as_of edge_types include_deleted
  else
    (* both directions; the timestamp read at the top of the function is
       not used on this path *)
    let* timestamp := as_of_or_now as_of in
    let* upstream := get_upstream fuel node_id depth as_of edge_types include_deleted in
    let* downstream := get_downstream fuel node_id depth as_of edge_types include_deleted in
    let* query := new_LineageQueryParams node_id "both" depth as_of edge_types in
    pure (merge_results query upstream downstream).

Definition get_bidirectional (fuel : nat) (node_id : UUID) (depth : Z)
    (as_of : option datetime) (edge_types : option (list EdgeType))
    (include_deleted : bool) : Async LineageGraphResponse.t :=
  _traverse_graph fuel node_id "both" depth as_of edge_types include_deleted.

(** ** Request schemas of the CRUD methods ([schemas.py]) *)

Module LineageNodeCreate.
Record t := mk {
  type : NodeType;
  name : string;
  qualified_name : option string;
  description : option string;
  documentation_url : option string;
  system : option string;
  platform : option string;
  location : option string;
  classification : option DataClassification;
  tags : json;
  attributes : json
}.
End LineageNodeCreate.

(** In the update schemas the outer [option] tells a field that was set
    from one left unset ([model_dump(exclude_unset=True)]). *)
Module LineageNodeUpdate.
Record t := mk {
  name : option (option string);
  description : option (option string);
  documentation_url : option (option string);
  classification : option (option DataClassification);
  tags : option (option json);
  attributes : option (option json)
}.
End LineageNodeUpdate.

Module LineageEdgeCreate.
Record t := mk {
  source_id : UUID;
  target_id : UUID;
  edge_type : EdgeType;
  metadata : json;
  valid_from : datetime;
  valid_to : option datetime;
  created_by : option string
}.
End LineageEdgeCreate.

Module ColumnLineageCreate.
Record t := mk {
  source_column : string;
  target_column : string;
  transformation : option string;
  transformation_type : option string;
  confidence : option Z;
  metadata : json;
  edge_id : UUID
}.
End ColumnLineageCreate.

Module LineageRunCreate.
Record t := mk {
  run_id : string;
  pipeline_name : string;
  status : string;
  started_at : datetime;
  completed_at : option datetime;
  git_sha : option string;
  git_branch : option string;
  environment : option string;
  parameters : json;
  triggered_by : option string;
  executor : option string;
  metrics : json;
  error_message : option string;
  node_id : option UUID
}.
End LineageRunCreate.

Module LineageRunUpdate.
Record t := mk {
  status : option (option string);
  completed_at : option (option datetime);
  metrics : option (option json);
  error_message : option (option string)
}.
End LineageRunUpdate.

(** ** CRUD operations *)

Definition with_nodes (s : Store) (nodes : list LineageNode.t) : Store :=
  mkStore nodes (lineage_edges s) (column_lineage s) (lineage_runs s).
Definition with_edges (s : Store) (edges : list LineageEdge.t) : Store :=
  mkStore (lineage_nodes s) edges (column_lineage s) (lineage_runs s).
Definition with_columns (s : Store) (columns : list ColumnLineage.t) : Store :=
  mkStore (lineage_nodes s) (lineage_edges s) columns (lineage_runs s).
Definition with_runs (s : Store) (runs : list LineageRun.t) : Store :=
  mkStore (lineage_nodes s) (lineage_edges s) (column_lineage s) runs.

(** [await self.session.commit()]: the pending change [flush] is written;
    [None] is a row the tables refuse (a primary key already present, a null
    in a column that is not nullable).  The other constraints of the schema
    are not modelled; they only make more commits fail. *)
Definition session_commit (flush : Store → option Store) : Async unit :=
  λ s, match flush (db s) with
       | Some store' =>
           (Return (), mkSession store' (executed s ++ [Commit]) (wall_clock s)
                         (clock_reads s))
       | None =>
           (Raise IntegrityError,
            mkSession (db s) (executed s ++ [Commit]) (wall_clock s) (clock_reads s))
       end.

(** [await self.session.refresh(obj)] *)
Definition session_refresh : Async unit :=
  λ s, (Return (), mkSession (db s) (executed s ++ [Refresh]) (wall_clock s)
                     (clock_reads s)).

(** [result.scalar_one_or_none()] *)
Definition scalar_one_or_none {A} (rows : list A) : Async (option A) :=
  match rows with
  | [] => pure None
  | [x] => pure (Some x)
  | _ :: _ :: _ => raise MultipleResultsFound
  end.

(** INSERT of a row whose primary key [id] must be new. *)
Definition insert_row {A} (key : A → UUID) (row : A) (table : list A) : option (list A) :=
  if bool_decide (key row ∈ key <$> table) then None else Some (table ++ [row]).

(** UPDATE ... WHERE id = [id]. *)
Definition update_rows {A} (key : A → UUID) (id : UUID) (f : A → A) (table : list A)
    : list A :=
  (λ row, if bool_decide (key row = id) then f row else row) <$> table.

(** [create_node]; [new_id] is the value [uuid4] yields for the row. *)
Definition create_node (new_id : UUID) (node_data : LineageNodeCreate.t)
    : Async LineageNode.t :=
  let* created := utcnow in
  let* updated := utcnow in
  let node :=
    LineageNode.mk new_id (LineageNodeCreate.type node_data)
      (LineageNodeCreate.name node_data) (LineageNodeCreate.qualified_name node_data)
      (LineageNodeCreate.description node_data)
      (LineageNodeCreate.documentation_url node_data)
      (LineageNodeCreate.system node_data) (LineageNodeCreate.platform node_data)
      (LineageNodeCreate.location node_data) (LineageNodeCreate.classification node_data)
      (Some (LineageNodeCreate.tags node_data))
      (Some (LineageNodeCreate.attributes node_data))
      created updated None in
  let* _ := session_commit (λ s,
              with_nodes s <$> insert_row LineageNode.id node (lineage_nodes s)) in
  let* _ := session_refresh in
  pure node.

Definition get_node (node_id : option UUID) (qualified_name : option string)
    (include_deleted : bool) : Async (option LineageNode.t) :=
  let deleted_ok (n : LineageNode.t) :=
    if include_deleted then true else bool_decide (LineageNode.deleted_at n = None) in
  match node_id, qualified_name with
  | Some i, _ =>
      let* rows := session_execute SelectNodeBy (λ s, Some
        (filter (λ n, bool_decide (LineageNode.id n = i) && deleted_ok n)
           (lineage_nodes s))) in
      scalar_one_or_none rows
  | None, Some (String c q) =>
      let* rows := session_execute SelectNodeBy (λ s, Some
        (filter (λ n, bool_decide (LineageNode.qualified_name n = Some (String c q))
                      && deleted_ok n)
           (lineage_nodes s))) in
      scalar_one_or_none rows
  | None, _ => pure None
  end.

(** The [setattr] loop over the fields that were set; a null name has no
    place in the row. *)
Definition apply_node_update (node_data : LineageNodeUpdate.t) (updated : datetime)
    (node : LineageNode.t) : option LineageNode.t :=
  match default (Some (LineageNode.name node)) (LineageNodeUpdate.name node_data) with
  | None => None
  | Some name =>
      Some (LineageNode.mk (LineageNode.id node) (LineageNode.type node) name
              (LineageNode.qualified_name node)
              (default (LineageNode.description node)
                 (LineageNodeUpdate.description node_data))
              (default (LineageNode.documentation_url node)
                 (LineageNodeUpdate.documentation_url node_data))
              (LineageNode.system node) (LineageNode.platform node)
              (LineageNode.location node)
              (default (LineageNode.classification node)
                 (LineageNodeUpdate.classification node_data))
              (default (LineageNode.tags node) (LineageNodeUpdate.tags node_data))
              (default (LineageNode.attributes node)
                 (LineageNodeUpdate.attributes node_data))
              (LineageNode.created_at node) updated (LineageNode.deleted_at node))
  end.

Definition update_node (node_id : UUID) (node_data : LineageNodeUpdate.t)
    : Async (option LineageNode.t) :=
  let* found := get_node (Some node_id) None false in
  match found with
  | None => pure None
  | Some node =>
      let* updated := utcnow in
      match apply_node_update node_data updated node with
      | None => let* _ := session_commit (λ _, None) in pure None
      | Some node' =>
          let* _ := session_commit (λ s, Some (with_nodes s
                      (update_rows LineageNode.id (LineageNode.id node) (λ _, node')
                         (lineage_nodes s)))) in
          let* _ := session_refresh in
          pure (Some node')
      end
  end.

(** The UPDATE of [soft_delete_node]: [deleted_at] takes the value
    assigned, and [updated_at], which the method does not assign, the value
    of its [onupdate=datetime.utcnow]. *)
Definition set_deleted_at (t stamp : datetime) (node : LineageNode.t) : LineageNode.t :=
  LineageNode.mk (LineageNode.id node) (LineageNode.type node) (LineageNode.name node)
    (LineageNode.qualified_name node) (LineageNode.description node)
    (LineageNode.documentation_url node) (LineageNode.system node)
    (LineageNode.platform node) (LineageNode.location node)
    (LineageNode.classification node) (LineageNode.tags node)
    (LineageNode.attributes node) (LineageNode.created_at node)
    stamp (Some t).

Definition soft_delete_node (node_id : UUID) : Async bool :=
  let* found := get_node (Some node_id) None false in
  match found with
  | None => pure false
  | Some node =>
      let* now := utcnow in
      let* stamp := utcnow in   (* [onupdate] of [updated_at], read at the flush *)
      let* _ := session_commit (λ s, Some (with_nodes s
                  (update_rows LineageNode.id (LineageNode.id node)
                     (set_deleted_at now stamp) (lineage_nodes s)))) in
      pure true
  end.

(** [create_edge].  The constructor of [LineageEdge] receives the fields
    of the request as keywords, the dictionary under [metadata]; the mapped
    attribute is [metadata_], which is therefore left unset, and the column
    takes its default, an empty dictionary. *)
Definition create_edge (new_id : UUID) (edge_data : LineageEdgeCreate.t)
    : Async LineageEdge.t :=
  let* created := utcnow in
  let edge :=
    LineageEdge.mk new_id (LineageEdgeCreate.source_id edge_data)
      (LineageEdgeCreate.target_id edge_data) (LineageEdgeCreate.edge_type edge_data)
      (Some [])
      (LineageEdgeCreate.valid_from edge_data) (LineageEdgeCreate.valid_to edge_data)
      created (LineageEdgeCreate.created_by edge_data) in
  let* _ := session_commit (λ s,
              with_edges s <$> insert_row LineageEdge.id edge (lineage_edges s)) in
  let* _ := session_refresh in
  pure edge.

Definition get_edge (edge_id : UUID) : Async (option LineageEdge.t) :=
  let* rows := session_execute SelectEdgeById (λ s, Some
    (filter (λ e, LineageEdge.id e = edge_id) (lineage_edges s))) in
  scalar_one_or_none rows.

(** [edge.valid_to = ...]: the one attribute the method assigns. *)
Definition set_valid_to (t : datetime) (edge : LineageEdge.t) : LineageEdge.t :=
  LineageEdge.mk (LineageEdge.id edge) (LineageEdge.source_id edge)
    (LineageEdge.target_id edge) (LineageEdge.edge_type edge)
    (LineageEdge.metadata_ edge) (LineageEdge.valid_from edge) (Some t)
    (LineageEdge.created_at edge) (LineageEdge.created_by edge).

Definition invalidate_edge (edge_id : UUID) (valid_to : option datetime) : Async bool :=
  let* found := get_edge edge_id in
  match found with
  | None => pure false
  | Some edge =>
      let* t := as_of_or_now valid_to in   (* valid_to or datetime.utcnow() *)
      let* _ := session_commit (λ s, Some (with_edges s
                  (update_rows LineageEdge.id (LineageEdge.id edge) (set_valid_to t)
                     (lineage_edges s)))) in
      pure true
  end.

(** [create_column_lineage]; the request's [metadata] is lost as in
    [create_edge]. *)
Definition create_column_lineage (new_id : UUID) (column_data : ColumnLineageCreate.t)
    : Async ColumnLineage.t :=
  let* created := utcnow in
  let column :=
    ColumnLineage.mk new_id (ColumnLineageCreate.edge_id column_data)
      (ColumnLineageCreate.source_column column_data)
      (ColumnLineageCreate.target_column column_data)
      (ColumnLineageCreate.transformation column_data)
      (ColumnLineageCreate.transformation_type column_data)
      (ColumnLineageCreate.confidence column_data)
      (Some []) created in
  let* _ := session_commit (λ s,
              with_columns s <$> insert_row ColumnLineage.id column (column_lineage s)) in
  let* _ := session_refresh in
  pure column.

Definition get_column_lineage (edge_id : UUID) : Async (list ColumnLineage.t) :=
  session_execute SelectColumnsByEdge (λ s, Some
    (filter (λ c, ColumnLineage.edge_id c = edge_id) (column_lineage s))).

Definition create_run (new_id : UUID) (run_data : LineageRunCreate.t)
    : Async LineageRun.t :=
  let* created := utcnow in
  let run :=
    LineageRun.mk new_id (LineageRunCreate.node_id run_data)
      (LineageRunCreate.run_id run_data) (LineageRunCreate.pipeline_name run_data)
      (LineageRunCreate.status run_data) (LineageRunCreate.started_at run_data)
      (LineageRunCreate.completed_at run_data) (LineageRunCreate.git_sha run_data)
      (LineageRunCreate.git_branch run_data) (LineageRunCreate.environment run_data)
      (Some (LineageRunCreate.parameters run_data))
      (LineageRunCreate.triggered_by run_data) (LineageRunCreate.executor run_data)
      (Some (LineageRunCreate.metrics run_data))
      (LineageRunCreate.error_message run_data) created in
  let* _ := session_commit (λ s,
              with_runs s <$> insert_row LineageRun.id run (lineage_runs s)) in
  let* _ := session_refresh in
  pure run.

Definition get_run (run_id : string) : Async (option LineageRun.t) :=
  let* rows := session_execute SelectRunByRunId (λ s, Some
    (filter (λ r, LineageRun.run_id r = run_id) (lineage_runs s))) in
  scalar_one_or_none rows.

Definition apply_run_update (run_data : LineageRunUpdate.t) (run : LineageRun.t)
    : option LineageRun.t :=
  match default (Some (LineageRun.status run)) (LineageRunUpdate.status run_data) with
  | None => None
  | Some status =>
      Some (LineageRun.mk (LineageRun.id run) (LineageRun.node_id run)
              (LineageRun.run_id run) (LineageRun.pipeline_name run) status
              (LineageRun.started_at run)
              (default (LineageRun.completed_at run)
                 (LineageRunUpdate.completed_at run_data))
              (LineageRun.git_sha run) (LineageRun.git_branch run)
              (LineageRun.environment run) (LineageRun.parameters run)
              (LineageRun.triggered_by run) (LineageRun.executor run)
              (default (LineageRun.metrics run) (LineageRunUpdate.metrics run_data))
              (default (LineageRun.error_message run)
                 (LineageRunUpdate.error_message run_data))
              (LineageRun.created_at run))
  end.

Definition update_run (run_id : string) (run_data : LineageRunUpdate.t)
    : Async (option LineageRun.t) :=
  let* found := get_run run_id in
  match found with
  | None => pure None
  | Some run =>
      match apply_run_update run_data run with
      | None => let* _ := session_commit (λ _, None) in pure None
      | Some run' =>
          let* _ := session_commit (λ s, Some (with_runs s
                      (update_rows LineageRun.id (LineageRun.id run) (λ _, run')
                         (lineage_runs s)))) in
          let* _ := session_refresh in
          pure (Some run')
      end
  end.

(** ** Convenience query methods *)

(** [ORDER BY created_at DESC]; the order of rows created at the same
    instant is the store's choice, here the one of the table.  [limit] and
    [offset] are the non-negative integers the store accepts. *)
Definition created_not_before (a b : LineageNode.t) : Prop :=
  LineageNode.created_at b ≤ LineageNode.created_at a.

#[global] Instance created_not_before_dec : RelDecision created_not_before.
Proof. intros a b. unfold created_not_before. apply _. Defined.

Definition order_by_created_at_desc (rows : list LineageNode.t) : list LineageNode.t :=
  merge_sort created_not_before rows.

Definition find_nodes_by_type (node_type : NodeType) (limit offset : nat)
    (include_deleted : bool) : Async (list LineageNode.t) :=
  session_execute SelectNodes (λ s, Some
    (take limit (drop offset (order_by_created_at_desc
       (filter (λ n, bool_decide (LineageNode.type n = node_type)
                     && (if include_deleted then true
                         else bool_decide (LineageNode.deleted_at n = None)))
          (lineage_nodes s)))))).

(** [search_nodes].  [ilike] is the store's [ILIKE] operator (pattern
    first), whose case folding depends on the collation of the database;
    the method builds the pattern [%search_term%] and leaves the rest to
    it. *)
Definition search_nodes (ilike : string → string → bool) (search_term : string)
    (node_types : option (list NodeType)) (limit : nat) : Async (list LineageNode.t) :=
  let pattern := ("%" +:+ search_term +:+ "%")%string in
  session_execute SelectNodes (λ s, Some
    (take limit
       (filter (λ n, (ilike pattern (LineageNode.name n)
                      || match LineageNode.qualified_name n with
                         | Some q => ilike pattern q
                         | None => false
                         end)
                     && bool_decide (LineageNode.deleted_at n = None)
                     && match node_types with
                        | None | Some [] => true
                        | Some ts => bool_decide (LineageNode.type n ∈ ts)
                        end)
          (lineage_nodes s)))).

(** ** The database URL ([db/session.py]) *)

(** [s.startswith(p)] *)
Fixpoint startswith (s p : string) {struct p} : bool :=
  match p with
  | EmptyString => true
  | String a p' =>
      match s with
      | EmptyString => false
      | String b s' => bool_decide (a = b) && startswith s' p'
      end
  end.

Fixpoint string_drop (n : nat) (s : string) : string :=
  match n, s with
  | O, _ => s
  | S _, EmptyString => EmptyString
  | S n', String _ s' => string_drop n' s'
  end.

(** [s.replace(old, new, 1)]: the leftmost occurrence of [old] is replaced. *)
Fixpoint replace_first (old new s : string) : string :=
  if startswith s old then (new +:+ string_drop (String.length old) s)%string
  else match s with
       | EmptyString => EmptyString
       | String c s' => String c (replace_first old new s')
       end.

(** The environment of the process, as [os.getenv] reads it. *)
Definition Environ := string → option string.

Definition get_database_url (environ : Environ) : string :=
  let url :=
    match environ "DATABASE_URL" with
    | Some (String c u) => String c u
    | _ =>
        (* [not url]: the variable is unset or empty *)
        let user := default "lens" (environ "POSTGRES_USER") in
        let password := default "lens_dev_password" (environ "POSTGRES_PASSWORD") in
        let host := default "localhost" (environ "POSTGRES_HOST") in
        let port := default "5432" (environ "POSTGRES_PORT") in
        let db := default "lens" (environ "POSTGRES_DB") in
        ("postgresql+asyncpg://" +:+ user +:+ ":" +:+ password +:+ "@" +:+ host
           +:+ ":" +:+ port +:+ "/" +:+ db)%string
    end in
  if startswith url "postgresql://"
  then replace_first "postgresql://" "postgresql+asyncpg://" url
  else url.

(** ** Small stores used to run the definitions *)

Module Fixture.
Definition node (i : UUID) (deleted : option datetime) : LineageNode.t :=
  LineageNode.mk i SOURCE_TABLE "n" None None None None None None None None None
                 0 0 deleted.

Definition edge (i src tgt : UUID) (ty : EdgeType) (vf : datetime)
    (vt : option datetime) : LineageEdge.t :=
  LineageEdge.mk i src tgt ty None vf vt 0 None.

Definition session (nodes : list LineageNode.t) (edges : list LineageEdge.t) : Session :=
  mkSession (mkStore nodes edges [] []) [] (λ k, 100 + Z.of_nat k) 0.

(** A → B → C → D, all edges open since instant 0. *)
Definition chain : Session :=
  session [node 1 None; node 2 None; node 3 None; node 4 None]
          [edge 11 1 2 READ 0 None; edge 12 2 3 READ 0 None; edge 13 3 4 READ 0 None].

(** A ⇄ B and a self-loop on A. *)
Definition cycle : Session :=
  session [node 1 None; node 2 None]
          [edge 11 1 2 READ 0 None; edge 12 2 1 READ 0 None; edge 13 1 1 READ 0 None].

(** The seed A is soft-deleted; A → B is open. *)
Definition deleted_seed : Session :=
  session [node 1 (Some 50); node 2 None] [edge 11 1 2 READ 0 None].

(** A → B where B is soft-deleted. *)
Definition deleted_target : Session :=
  session [node 1 None; node 2 (Some 50)] [edge 11 1 2 READ 0 None].

(** A alone: a node no edge touches. *)
Definition isolated : Session := session [node 1 None] [].

(** An environment that gives the URL with the plain scheme. *)
Definition environ : Environ :=
  λ name, if decide (name = "DATABASE_URL") then Some "postgresql://lens@db:5432/lens"
          else None.
End Fixture.

(** * Vocabulary of the statements *)

(** ** The temporal predicate as the specification words it *)

Definition is_active (e : LineageEdge.t) (as_of : datetime) : Prop :=
  LineageEdge.valid_from e ≤ as_of
  ∧ (LineageEdge.valid_to e = None
     ∨ ∃ t, LineageEdge.valid_to e = Some t ∧ t > as_of).

Definition type_selected (edge_types : option (list EdgeType)) (e : LineageEdge.t) : Prop :=
  match edge_types with
  | None | Some [] => True
  | Some ts => LineageEdge.edge_type e ∈ ts
  end.

(** ** Paths and rounds *)

Section Reachability.
Variable d : TraversalDirection.
Variable node_id : UUID.
Variable depth : Z.
Variable timestamp : datetime.
Variable edge_types : option (list EdgeType).
Variable edges : list LineageEdge.t.

(** A path of exactly [j] qualifying hops from the seed, walked in the
    direction of the traversal. *)
Inductive hops : nat → UUID → Prop :=
  | hops_seed : hops 0 node_id
  | hops_next j u e :
      hops j u → e ∈ edges → near_end d e = u →
      is_active e timestamp → type_selected edge_types e →
      hops (S j) (far_end d e).

Definition reachable_within (n : nat) (u : UUID) : Prop :=
  ∃ j, (j ≤ n)%nat ∧ hops j u.

(** The rows produced by the [j]-th round. *)
Definition round (j : nat) : list Cte.row := Nat.iter j (cte_recursive d depth timestamp edge_types edges)
    (cte_base d node_id timestamp edge_types edges).

End Reachability.

(** ** Sessions *)

Definition timestamp_of (as_of : option datetime) (s : Session) : datetime :=
  match as_of with
  | Some t => t
  | None => wall_clock s (clock_reads s)
  end.

Definition clock_reads_after (as_of : option datetime) (n : nat) : nat :=
  match as_of with
  | Some _ => n
  | None => S n
  end.

(** The session after [as_of or datetime.utcnow()]: the clock has been read
    when [as_of] is unset. *)
Definition after_now (as_of : option datetime) (s : Session) : Session :=
  mkSession (db s) (executed s) (wall_clock s) (clock_reads_after as_of (clock_reads s)).

(** The session a traversal leaves behind: nothing but the readings of
    the clock, one for the call itself and, in the branch of both
    directions, one for the inner call it starts with. *)
Definition after_traverse (direction : string) (as_of : option datetime)
    (s : Session) : Session :=
  if decide (direction = "upstream") then after_now as_of s
  else if decide (direction = "downstream") then after_now as_of s
  else after_now as_of (after_now as_of s).



(** ** Edges under the operations of the repository *)

(** Two rows that differ at most in [valid_to]. *)
Definition same_but_valid_to (e e' : LineageEdge.t) : Prop :=
  LineageEdge.id e' = LineageEdge.id e
  ∧ LineageEdge.source_id e' = LineageEdge.source_id e
  ∧ LineageEdge.target_id e' = LineageEdge.target_id e
  ∧ LineageEdge.edge_type e' = LineageEdge.edge_type e
  ∧ LineageEdge.metadata_ e' = LineageEdge.metadata_ e
  ∧ LineageEdge.valid_from e' = LineageEdge.valid_from e
  ∧ LineageEdge.created_at e' = LineageEdge.created_at e
  ∧ LineageEdge.created_by e' = LineageEdge.created_by e.

(** Every edge row of [st] is still a row of [st'], in place and changed
    at most in [valid_to]; rows may have been added after them. *)
Definition edges_preserved (st st' : Store) : Prop :=
  ∃ kept added, lineage_edges st' = kept ++ added
                ∧ Forall2 same_but_valid_to (lineage_edges st) kept.

Definition keeps_edges {A} (c : Async A) : Prop :=
  ∀ s, edges_preserved (db s) (db (c s).2).

(** A call of a method of the repository. *)
Inductive RepositoryCall :=
  | CreateNode (new_id : UUID) (node_data : LineageNodeCreate.t)
  | GetNode (node_id : option UUID) (qualified_name : option string)
      (include_deleted : bool)
  | UpdateNode (node_id : UUID) (node_data : LineageNodeUpdate.t)
  | SoftDeleteNode (node_id : UUID)
  | CreateEdge (new_id : UUID) (edge_data : LineageEdgeCreate.t)
  | GetEdge (edge_id : UUID)
  | InvalidateEdge (edge_id : UUID) (valid_to : option datetime)
  | CreateColumnLineage (new_id : UUID) (column_data : ColumnLineageCreate.t)
  | GetColumnLineage (edge_id : UUID)
  | CreateRun (new_id : UUID) (run_data : LineageRunCreate.t)
  | GetRun (run_id : string)
  | UpdateRun (run_id : string) (run_data : LineageRunUpdate.t)
  | TraverseGraph (fuel : nat) (node_id : UUID) (direction : string) (depth : Z)
      (as_of : option datetime) (edge_types : option (list EdgeType))
      (include_deleted : bool)
  | FindNodesByType (node_type : NodeType) (limit offset : nat) (include_deleted : bool)
  | SearchNodes (ilike : string → string → bool) (search_term : string)
      (node_types : option (list NodeType)) (limit : nat).

(** The session a call leaves behind, however it ends. *)
Definition session_after (call : RepositoryCall) (s : Session) : Session :=
  match call with
  | CreateNode new_id node_data => (create_node new_id node_data s).2
  | GetNode node_id qualified_name include_deleted =>
      (get_node node_id qualified_name include_deleted s).2
  | UpdateNode node_id node_data => (update_node node_id node_data s).2
  | SoftDeleteNode node_id => (soft_delete_node node_id s).2
  | CreateEdge new_id edge_data => (create_edge new_id edge_data s).2
  | GetEdge edge_id => (get_edge edge_id s).2
  | InvalidateEdge edge_id valid_to => (invalidate_edge edge_id valid_to s).2
  | CreateColumnLineage new_id column_data =>
      (create_column_lineage new_id column_data s).2
  | GetColumnLineage edge_id => (get_column_lineage edge_id s).2
  | CreateRun new_id run_data => (create_run new_id run_data s).2
  | GetRun run_id => (get_run run_id s).2
  | UpdateRun run_id run_data => (update_run run_id run_data s).2
  | TraverseGraph fuel node_id direction depth as_of edge_types include_deleted =>
      (_traverse_graph fuel node_id direction depth as_of edge_types include_deleted s).2
  | FindNodesByType node_type limit offset include_deleted =>
      (find_nodes_by_type node_type limit offset include_deleted s).2
  | SearchNodes ilike search_term node_types limit =>
      (search_nodes ilike search_term node_types limit s).2
  end.

(** ** Keys of the tables *)

(** Primary keys of the two tables of the graph. *)
Definition node_ids_unique (st : Store) : Prop :=
  NoDup (LineageNode.id <$> lineage_nodes st).

Definition edge_ids_unique (st : Store) : Prop :=
  NoDup (LineageEdge.id <$> lineage_edges st).

(** Statements that only read. *)
Definition is_select (stmt : Stmt) : Prop := stmt ≠ Commit ∧ stmt ≠ Refresh.

(** A computation that leaves the tables as they are and sends nothing but
    reading statements. *)
Definition read_only {A} (c : Async A) : Prop :=
  ∀ s, db (c s).2 = db s
       ∧ wall_clock (c s).2 = wall_clock s
       ∧ ∃ sent, executed (c s).2 = executed s ++ sent ∧ Forall is_select sent.

(** The calls of the repository that are queries. *)
Definition is_query (call : RepositoryCall) : bool :=
  match call with
  | GetNode _ _ _ | GetEdge _ | GetColumnLineage _ | GetRun _
  | TraverseGraph _ _ _ _ _ _ _ | FindNodesByType _ _ _ _ | SearchNodes _ _ _ _ => true
  | _ => false
  end.

(** ** Nodes under the operations of the repository *)

(** Two node rows that differ at most in [updated_at] and [deleted_at]. *)
Definition same_but_stamps (n n' : LineageNode.t) : Prop :=
  LineageNode.id n' = LineageNode.id n
  ∧ LineageNode.type n' = LineageNode.type n
  ∧ LineageNode.name n' = LineageNode.name n
  ∧ LineageNode.qualified_name n' = LineageNode.qualified_name n
  ∧ LineageNode.description n' = LineageNode.description n
  ∧ LineageNode.documentation_url n' = LineageNode.documentation_url n
  ∧ LineageNode.system n' = LineageNode.system n
  ∧ LineageNode.platform n' = LineageNode.platform n
  ∧ LineageNode.location n' = LineageNode.location n
  ∧ LineageNode.classification n' = LineageNode.classification n
  ∧ LineageNode.tags n' = LineageNode.tags n
  ∧ LineageNode.attributes n' = LineageNode.attributes n
  ∧ LineageNode.created_at n' = LineageNode.created_at n.

(** The columns no update of a node reaches. *)
Definition same_identity (n n' : LineageNode.t) : Prop :=
  LineageNode.id n' = LineageNode.id n
  ∧ LineageNode.type n' = LineageNode.type n
  ∧ LineageNode.qualified_name n' = LineageNode.qualified_name n
  ∧ LineageNode.system n' = LineageNode.system n
  ∧ LineageNode.platform n' = LineageNode.platform n
  ∧ LineageNode.location n' = LineageNode.location n
  ∧ LineageNode.created_at n' = LineageNode.created_at n
  ∧ LineageNode.deleted_at n' = LineageNode.deleted_at n.

(** * Properties *)

(** ** The temporal predicate and the filters *)

Lemma temporal_filter_spec timestamp e :
  temporal_filter timestamp e = true ↔ is_active e timestamp.
Proof.
  unfold temporal_filter, is_active.
  rewrite andb_true_iff, Z.leb_le.
  destruct (LineageEdge.valid_to e) as [t|].
  - rewrite Z.gtb_gt. split.
    + intros [? ?]. split; [done|]. right. by exists t.
    + intros [? [?|(t' & [= <-] & ?)]]; done.
  - split; intros [? _]; (split; [done|]); [by left|done].
Qed.

Lemma edge_type_filter_spec edge_types e :
  edge_type_filter edge_types e = true ↔ type_selected edge_types e.
Proof.
  unfold edge_type_filter, type_selected.
  destruct edge_types as [[|t ts]|]; [done| |done].
  by rewrite bool_decide_eq_true.
Qed.

Section TraversalFacts.
Variable d : TraversalDirection.
Variable node_id : UUID.
Variable depth : Z.
Variable timestamp : datetime.
Variable edge_types : option (list EdgeType).

Lemma base_where_spec e :
  base_where d node_id timestamp edge_types e = true ↔
  near_end d e = node_id ∧ is_active e timestamp ∧ type_selected edge_types e.
Proof.
  unfold base_where.
  rewrite !andb_true_iff, bool_decide_eq_true,
    temporal_filter_spec, edge_type_filter_spec.
  tauto.
Qed.

Lemma recursive_where_spec e r :
  recursive_where d depth timestamp edge_types e r = true ↔
  near_end d e = Cte.node_id r ∧ Cte.depth r < depth
  ∧ is_active e timestamp ∧ type_selected edge_types e.
Proof.
  unfold recursive_where.
  rewrite !andb_true_iff, bool_decide_eq_true, Z.ltb_lt,
    temporal_filter_spec, edge_type_filter_spec.
  tauto.
Qed.


End TraversalFacts.

(** ** Evaluation of the recursive CTE *)

Section CteEvaluation.
Variable d : TraversalDirection.
Variable node_id : UUID.
Variable depth : Z.
Variable timestamp : datetime.
Variable edge_types : option (list EdgeType).
Variable edges : list LineageEdge.t.

Abbreviation hop_path := (hops d node_id timestamp edge_types edges).
Abbreviation within := (reachable_within d node_id timestamp edge_types edges).
Abbreviation rounds := (round d node_id depth timestamp edge_types edges).
Abbreviation step := (cte_recursive d depth timestamp edge_types edges).
Abbreviation eval := (λ fuel, with_recursive d depth timestamp edge_types fuel edges).
Abbreviation base := (cte_base d node_id timestamp edge_types edges).

Lemma with_recursive_nil fuel : eval fuel [] = Some [].
Proof. by destruct fuel. Qed.






Lemma with_recursive_fuel_mono fuel : ∀ fuel' working rows,
  eval fuel working = Some rows → (fuel ≤ fuel')%nat →
  eval fuel' working = Some rows.
Proof.
  induction fuel as [|fuel IH]; intros fuel' working rows Hev Hle.
  - destruct working; [|done]. by rewrite with_recursive_nil.
  - destruct working as [|r0 working]; [by rewrite with_recursive_nil|].
    destruct fuel' as [|fuel']; [lia|]. simpl in *.
    destruct (with_recursive _ _ _ _ fuel _ _) as [rows'|] eqn:Hrec; [|done].
    rewrite (IH fuel' _ rows' Hrec); [done|lia].
Qed.




Lemma reachable_within_mono n m u :
  within n u → (n ≤ m)%nat → within m u.
Proof. intros (j & ? & ?) ?. exists j. split; [lia|done]. Qed.
End CteEvaluation.

(** ** What one call of the traversal does to the session *)

Lemma as_of_or_now_run as_of s :
  as_of_or_now as_of s =
  (Return (timestamp_of as_of s),
   mkSession (db s) (executed s) (wall_clock s) (clock_reads_after as_of (clock_reads s))).
Proof. destruct as_of; [by destruct s|done]. Qed.

Lemma new_LineageQueryParams_run node_id direction depth as_of edge_types s :
  direction_pattern direction = true →
  new_LineageQueryParams node_id direction depth as_of edge_types s =
  (if depth_in_range depth
   then Return (LineageQueryParams.mk (Some node_id) None direction depth as_of false
                  edge_types)
   else Raise (ValidationError ["depth"]), s).
Proof.
  intros Hp. unfold new_LineageQueryParams. rewrite Hp.
  by destruct (depth_in_range depth).
Qed.

Lemma direction_name_pattern d : direction_pattern (direction_name d) = true.
Proof. by destruct d. Qed.

Lemma depth_in_range_spec depth : depth_in_range depth = true ↔ 1 ≤ depth ≤ 10.
Proof. unfold depth_in_range. rewrite andb_true_iff, !Z.leb_le. done. Qed.

Lemma select_edge_columns_raises s : select_edge_columns s = (Raise AttributeError, s).
Proof. reflexivity. Qed.

(** A directed traversal reads the clock when [as_of] is unset and fails
    while it puts the edge statement together. *)
Lemma traverse_directed_raises fuel d node_id depth as_of edge_types include_deleted s :
  traverse_directed fuel d node_id depth as_of edge_types include_deleted s
  = (Raise AttributeError, after_now as_of s).
Proof.
  unfold traverse_directed, await at 1. rewrite as_of_or_now_run.
  unfold await at 1. by rewrite select_edge_columns_raises.
Qed.

Lemma traverse_graph_raises fuel node_id direction depth as_of edge_types
    include_deleted s :
  _traverse_graph fuel node_id direction depth as_of edge_types include_deleted s
  = (Raise AttributeError, after_traverse direction as_of s).
Proof.
  unfold _traverse_graph, after_traverse.
  repeat case_decide; rewrite ?traverse_directed_raises; try done.
  unfold await at 1. rewrite as_of_or_now_run. fold (after_now as_of s).
  unfold await at 1, get_upstream. by rewrite traverse_directed_raises.
Qed.

Lemma traverse_graph_other_direction fuel node_id direction depth as_of edge_types
    include_deleted s :
  direction ≠ "upstream" → direction ≠ "downstream" →
  _traverse_graph fuel node_id direction depth as_of edge_types include_deleted s
  = _traverse_graph fuel node_id "both" depth as_of edge_types include_deleted s.
Proof. intros Hup Hdown. unfold _traverse_graph. by rewrite !decide_False. Qed.

(** ** The statements the traversal puts together *)

Lemma elem_of_collect_node_ids node_id edges_data i :
  i ∈ collect_node_ids node_id edges_data ↔
  i = node_id
  ∨ ∃ row, row ∈ edges_data ∧ (i = EdgeRow.source_id row ∨ i = EdgeRow.target_id row).
Proof.
  unfold collect_node_ids.
  assert (∀ (acc : gset UUID),
    i ∈ foldl (λ ids edge, ids ∪ {[EdgeRow.source_id edge]} ∪ {[EdgeRow.target_id edge]})
              acc edges_data ↔
    i ∈ acc ∨ ∃ row, row ∈ edges_data
                     ∧ (i = EdgeRow.source_id row ∨ i = EdgeRow.target_id row)) as Hgen.
  { induction edges_data as [|row rows IH]; intros acc; simpl.
    - split; [by left|]. intros [?|(row & ?%elem_of_nil & _)]; done.
    - rewrite IH, !elem_of_union, !elem_of_singleton. split.
      + intros [[[?|?]|?]|(row' & ? & ?)].
        * by left.
        * right. exists row. split; [left|]; auto.
        * right. exists row. split; [left|]; auto.
        * right. exists row'. split; [by right|done].
      + intros [?|(row' & [->|?]%elem_of_cons & Hrow')].
        * by left; left; left.
        * left. destruct Hrow'; [left; by right|by right].
        * right. by exists row'. }
  rewrite Hgen. by rewrite elem_of_singleton.
Qed.


Lemma node_conditions_spec node_ids include_deleted n :
  node_conditions node_ids include_deleted n = true ↔
  LineageNode.id n ∈ node_ids
  ∧ (include_deleted = true ∨ LineageNode.deleted_at n = None).
Proof.
  unfold node_conditions. rewrite andb_true_iff, bool_decide_eq_true.
  destruct include_deleted.
  - split; [intros [? _]; split; [done|by left]|by intros [? _]].
  - rewrite bool_decide_eq_true. split; [intros [? ?]; split; [done|by right]|].
    by intros [? [?|?]].
Qed.

(** ** Dictionaries built by a comprehension *)

Section DictFacts.
Context {K V : Type} `{EqDecision K}.
Variable key : V → K.

Implicit Types (d : list (K * V)) (l : list V).

Lemma dict_get_setitem k k' v d :
  dict_get k' (dict_setitem k v d) = if decide (k' = k) then Some v else dict_get k' d.
Proof.
  induction d as [|[k0 v0] d IH]; simpl.
  - by destruct (decide (k' = k)).
  - destruct (decide (k = k0)) as [->|Hne]; simpl.
    + by destruct (decide (k' = k0)).
    + rewrite IH. destruct (decide (k' = k0)) as [->|]; [|done].
      destruct (decide (k0 = k)); congruence.
Qed.

Lemma dict_keys_setitem k v d :
  dict_keys (dict_setitem k v d)
  = if decide (k ∈ dict_keys d) then dict_keys d else dict_keys d ++ [k].
Proof.
  unfold dict_keys. induction d as [|[k0 v0] d IH].
  - case_decide as Hin; [by apply elem_of_nil in Hin|done].
  - csimpl. destruct (decide (k = k0)) as [->|Hne]; csimpl.
    + clear IH. case_decide as Hin; [done|]. exfalso. apply Hin. by left.
    + rewrite IH. clear IH. destruct (decide (k ∈ d.*1)) as [Hin|Hnin].
      * case_decide as Hin'; [done|]. exfalso. apply Hin'. by right.
      * case_decide as Hin'; [|done].
        apply elem_of_cons in Hin' as [?|?]; done.
Qed.

Lemma dict_get_elem_of d k v :
  NoDup (dict_keys d) → (k, v) ∈ d ↔ dict_get k d = Some v.
Proof.
  unfold dict_keys. induction d as [|[k0 v0] d IH]; simpl; intros Hnd.
  - split; [by intros ?%elem_of_nil|done].
  - apply NoDup_cons in Hnd as [Hk0 Hnd]. rewrite elem_of_cons, (IH Hnd).
    destruct (decide (k = k0)) as [->|Hne].
    + split; [|intros [= ->]; by left].
      intros [[= ->]|Hget]; [done|]. exfalso. apply Hk0.
      apply IH in Hget; [|done].
      apply list_elem_of_fmap. by exists (k0, v).
    + split; [|by right]. intros [[= ? ?]|?]; done.
Qed.

Lemma dict_comprehension_snoc l x :
  dict_comprehension key (l ++ [x])
  = dict_setitem (key x) x (dict_comprehension key l).
Proof. unfold dict_comprehension. by rewrite foldl_snoc. Qed.

Lemma dict_comprehension_keys l :
  NoDup (dict_keys (dict_comprehension key l))
  ∧ ∀ k, k ∈ dict_keys (dict_comprehension key l) ↔ k ∈ key <$> l.
Proof.
  induction l as [|x l [IHnd IHin]] using rev_ind.
  - split; [constructor|done].
  - rewrite dict_comprehension_snoc, dict_keys_setitem, fmap_app. simpl.
    destruct (decide (key x ∈ dict_keys (dict_comprehension key l))) as [Hin|Hnin].
    + split; [done|]. intros k. rewrite elem_of_app, list_elem_of_singleton, IHin.
      split; [by left|]. intros [?| ->]; [done|]. by apply IHin.
    + split.
      * apply NoDup_app. split_and!; [done| |apply NoDup_singleton].
        intros k Hk ->%list_elem_of_singleton. done.
      * intros k. by rewrite !elem_of_app, IHin.
Qed.

(** The entry of a key is the last element of the list with that key. *)
Lemma dict_comprehension_get l k :
  dict_get k (dict_comprehension key l) = last (filter (λ v, key v = k) l).
Proof.
  induction l as [|x l IH] using rev_ind; [done|].
  rewrite dict_comprehension_snoc, dict_get_setitem, filter_app, IH.
  destruct (decide (k = key x)) as [->|Hne].
  - rewrite filter_cons_True, filter_nil by done. by rewrite last_snoc.
  - rewrite filter_cons_False, filter_nil by done. by rewrite (right_id_L [] (++)).
Qed.

Lemma last_filter_key l k v :
  last (filter (λ x, key x = k) l) = Some v → key v = k ∧ v ∈ l.
Proof. intros Hl%last_Some_elem_of. by apply list_elem_of_filter in Hl. Qed.

Lemma elem_of_dict_comprehension l k v :
  (k, v) ∈ dict_comprehension key l ↔ last (filter (λ x, key x = k) l) = Some v.
Proof.
  rewrite <-dict_comprehension_get. apply dict_get_elem_of.
  apply dict_comprehension_keys.
Qed.

Lemma elem_of_dict_values l v :
  v ∈ dict_values (dict_comprehension key l)
  ↔ last (filter (λ x, key x = key v) l) = Some v.
Proof.
  unfold dict_values. rewrite list_elem_of_fmap. split.
  - intros ([k v'] & -> & Hkv). simpl.
    apply elem_of_dict_comprehension in Hkv as Hlast.
    destruct (last_filter_key _ _ _ Hlast) as [<- _]. done.
  - intros Hlast. exists (key v, v). split; [done|].
    by apply elem_of_dict_comprehension.
Qed.



End DictFacts.

(** ** The merge of two results *)

Section Merge.
Variable query : LineageQueryParams.t.
Variables upstream downstream : LineageGraphResponse.t.

Abbreviation merged := (merge_results query upstream downstream).



Lemma merged_nodes_from g :
  g ∈ LineageGraphResponse.nodes merged →
  g ∈ LineageGraphResponse.nodes upstream ∨ g ∈ LineageGraphResponse.nodes downstream.
Proof.
  simpl. intros Hg%elem_of_dict_values.
  apply last_filter_key in Hg as [_ Hg]. by apply elem_of_app in Hg.
Qed.

Lemma merged_edges_from ge :
  ge ∈ LineageGraphResponse.edges merged →
  ge ∈ LineageGraphResponse.edges upstream ∨ ge ∈ LineageGraphResponse.edges downstream.
Proof.
  simpl. intros Hg%elem_of_dict_values.
  apply last_filter_key in Hg as [_ Hg]. by apply elem_of_app in Hg.
Qed.

End Merge.


(** ** Edges under the operations of the repository *)

Lemma same_but_valid_to_refl e : same_but_valid_to e e.
Proof. by repeat split. Qed.

Lemma same_but_valid_to_trans e1 e2 e3 :
  same_but_valid_to e1 e2 → same_but_valid_to e2 e3 → same_but_valid_to e1 e3.
Proof.
  unfold same_but_valid_to. intros (?&?&?&?&?&?&?&?) (?&?&?&?&?&?&?&?).
  split_and!; congruence.
Qed.

Lemma same_but_valid_to_set t e : same_but_valid_to e (set_valid_to t e).
Proof. by repeat split. Qed.

Lemma Forall2_same_refl l : Forall2 same_but_valid_to l l.
Proof. apply Forall_Forall2_diag, Forall_forall. intros. apply same_but_valid_to_refl. Qed.

Lemma Forall2_same_trans l1 : ∀ l2 l3,
  Forall2 same_but_valid_to l1 l2 → Forall2 same_but_valid_to l2 l3 →
  Forall2 same_but_valid_to l1 l3.
Proof.
  induction l1 as [|e1 l1 IH]; intros l2 l3 H12 H23.
  - inversion H12; subst. by inversion H23.
  - inversion H12 as [|? e2 ? l2' He12 Hl12]; subst.
    inversion H23 as [|? e3 ? l3' He23 Hl23]; subst.
    constructor; [by eapply same_but_valid_to_trans|by eapply IH].
Qed.

Lemma edges_preserved_refl st : edges_preserved st st.
Proof.
  exists (lineage_edges st), []. split; [by rewrite (right_id_L [] (++))|].
  apply Forall2_same_refl.
Qed.

Lemma edges_preserved_same st st' :
  lineage_edges st' = lineage_edges st → edges_preserved st st'.
Proof.
  intros Heq. exists (lineage_edges st), []. split.
  - by rewrite (right_id_L [] (++)).
  - apply Forall2_same_refl.
Qed.

Lemma edges_preserved_trans st1 st2 st3 :
  edges_preserved st1 st2 → edges_preserved st2 st3 → edges_preserved st1 st3.
Proof.
  intros (kept1 & added1 & Heq1 & H1) (kept2 & added2 & Heq2 & H2).
  rewrite Heq1 in H2.
  apply Forall2_app_inv_l in H2 as (k2a & k2b & H2a & _ & ->).
  exists k2a, (k2b ++ added2). split.
  - by rewrite Heq2, <-(assoc_L (++)).
  - by eapply Forall2_same_trans.
Qed.

Lemma update_rows_set_valid_to id t edges :
  Forall2 same_but_valid_to edges (update_rows LineageEdge.id id (set_valid_to t) edges).
Proof.
  unfold update_rows. apply Forall2_fmap_r, Forall_Forall2_diag, Forall_forall.
  intros e _. simpl. case_bool_decide.
  - apply same_but_valid_to_set.
  - apply same_but_valid_to_refl.
Qed.

Lemma insert_row_edges edge edges edges' :
  insert_row LineageEdge.id edge edges = Some edges' → edges' = edges ++ [edge].
Proof. unfold insert_row. case_bool_decide; [done|]. by intros [= <-]. Qed.

(** *** Composition *)

Lemma keeps_edges_pure {A} (a : A) : keeps_edges (pure a).
Proof. intros s. apply edges_preserved_refl. Qed.

Lemma keeps_edges_raise {A} e : keeps_edges (@raise A e).
Proof. intros s. apply edges_preserved_refl. Qed.

Lemma keeps_edges_await {A B} (c : Async A) (k : A → Async B) :
  keeps_edges c → (∀ a, keeps_edges (k a)) → keeps_edges (await c k).
Proof.
  intros Hc Hk s. unfold await. specialize (Hc s).
  destruct (c s) as [[a| |] s1]; simpl in *; [|done..].
  eapply edges_preserved_trans; [done|]. apply Hk.
Qed.

Lemma keeps_edges_utcnow : keeps_edges utcnow.
Proof. intros s. apply edges_preserved_refl. Qed.

Lemma keeps_edges_as_of_or_now as_of : keeps_edges (as_of_or_now as_of).
Proof. destruct as_of; [apply keeps_edges_pure|apply keeps_edges_utcnow]. Qed.

Lemma keeps_edges_execute {A} stmt (q : Store → option A) :
  keeps_edges (session_execute stmt q).
Proof.
  intros s. unfold session_execute. destruct (q (db s)); apply edges_preserved_refl.
Qed.

Lemma keeps_edges_refresh : keeps_edges session_refresh.
Proof. intros s. apply edges_preserved_refl. Qed.

Lemma keeps_edges_scalar {A} (rows : list A) : keeps_edges (scalar_one_or_none rows).
Proof.
  destruct rows as [|? [|? ?]];
    [apply keeps_edges_pure|apply keeps_edges_pure|apply keeps_edges_raise].
Qed.

Lemma keeps_edges_commit flush :
  (∀ st st', flush st = Some st' → edges_preserved st st') →
  keeps_edges (session_commit flush).
Proof.
  intros Hflush s. unfold session_commit.
  destruct (flush (db s)) as [st'|] eqn:Hst; simpl.
  - by apply Hflush.
  - apply edges_preserved_refl.
Qed.

Lemma keeps_edges_cte_c name : keeps_edges (cte_c name).
Proof. unfold cte_c. case_bool_decide; [apply keeps_edges_pure|apply keeps_edges_raise]. Qed.

Lemma keeps_edges_execute_bound {A} stmt depth (q : Store → option A) :
  keeps_edges (session_execute_bound stmt depth q).
Proof.
  unfold session_execute_bound. destruct (int4 depth); [apply keeps_edges_execute|].
  intros s. apply edges_preserved_refl.
Qed.

Lemma keeps_edges_query_params node_id direction depth as_of edge_types :
  keeps_edges (new_LineageQueryParams node_id direction depth as_of edge_types).
Proof.
  unfold new_LineageQueryParams.
  destruct (_ ++ _); [apply keeps_edges_pure|apply keeps_edges_raise].
Qed.

Create HintDb frame discriminated.

#[local] Hint Resolve keeps_edges_pure keeps_edges_raise keeps_edges_utcnow
  keeps_edges_as_of_or_now keeps_edges_execute keeps_edges_refresh keeps_edges_scalar
  keeps_edges_query_params keeps_edges_cte_c keeps_edges_execute_bound
  edges_preserved_refl : frame.

(** Unfolds one method and walks through its awaits. *)
Ltac frame_steps :=
  repeat first
    [ apply keeps_edges_await; [|intros ?]
    | apply keeps_edges_commit; intros ? ? ?
    | progress auto with frame
    | case_match ].

Lemma keeps_edges_get_node node_id qualified_name include_deleted :
  keeps_edges (get_node node_id qualified_name include_deleted).
Proof. unfold get_node. frame_steps. Qed.

Lemma keeps_edges_get_edge edge_id : keeps_edges (get_edge edge_id).
Proof. unfold get_edge. frame_steps. Qed.

Lemma keeps_edges_get_run run_id : keeps_edges (get_run run_id).
Proof. unfold get_run. frame_steps. Qed.

#[local] Hint Resolve keeps_edges_get_node keeps_edges_get_edge keeps_edges_get_run
  : frame.

Lemma keeps_edges_traverse_directed fuel d node_id depth as_of edge_types include_deleted :
  keeps_edges (traverse_directed fuel d node_id depth as_of edge_types include_deleted).
Proof. unfold traverse_directed. frame_steps. Qed.

#[local] Hint Resolve keeps_edges_traverse_directed : frame.

Lemma keeps_edges_traverse_graph fuel node_id direction depth as_of edge_types
    include_deleted :
  keeps_edges (_traverse_graph fuel node_id direction depth as_of edge_types
                 include_deleted).
Proof. unfold _traverse_graph, get_upstream, get_downstream. frame_steps. Qed.

Ltac as_keeps_edges :=
  match goal with
  | |- ∀ s, edges_preserved (db s) (db (?c s).2) => change (keeps_edges c)
  end.

Lemma session_after_keeps_edges call s :
  edges_preserved (db s) (db (session_after call s)).
Proof.
  revert s. destruct call; cbn [session_after].
  - as_keeps_edges. unfold create_node. frame_steps.
    destruct (insert_row _ _ _); simplify_eq/=. by apply edges_preserved_same.
  - as_keeps_edges. apply keeps_edges_get_node.
  - as_keeps_edges. unfold update_node. frame_steps;
      simplify_eq/=; by apply edges_preserved_same.
  - as_keeps_edges. unfold soft_delete_node. frame_steps.
    simplify_eq/=. by apply edges_preserved_same.
  - as_keeps_edges. unfold create_edge. frame_steps.
    destruct (insert_row _ _ _) as [edges'|] eqn:Hins; simplify_eq/=.
    apply insert_row_edges in Hins as ->.
    eexists _, _. split; [done|]. apply Forall2_same_refl.
  - as_keeps_edges. apply keeps_edges_get_edge.
  - as_keeps_edges. unfold invalidate_edge. frame_steps.
    simplify_eq/=. eexists _, []. split; [by rewrite (right_id_L [] (++))|].
    apply update_rows_set_valid_to.
  - as_keeps_edges.
    unfold create_column_lineage. frame_steps.
    destruct (insert_row _ _ _); simplify_eq/=. by apply edges_preserved_same.
  - as_keeps_edges. unfold get_column_lineage.
    frame_steps.
  - as_keeps_edges. unfold create_run. frame_steps.
    destruct (insert_row _ _ _); simplify_eq/=. by apply edges_preserved_same.
  - as_keeps_edges. apply keeps_edges_get_run.
  - as_keeps_edges. unfold update_run. frame_steps;
      simplify_eq/=; by apply edges_preserved_same.
  - as_keeps_edges. apply keeps_edges_traverse_graph.
  - as_keeps_edges. apply keeps_edges_execute.
  - as_keeps_edges. apply keeps_edges_execute.
Qed.

Lemma filter_unique_key {A : Type} (key : A → UUID) (l : list A) (e : A) :
  NoDup (key <$> l) → e ∈ l → filter (λ x, key x = key e) l = [e].
Proof.
  induction l as [|a l IH]; csimpl; intros Hnd He.
  - by apply elem_of_nil in He.
  - apply NoDup_cons in Hnd as [Ha Hnd].
    apply elem_of_cons in He as [-> |He].
    + rewrite filter_cons_True by done. f_equal.
      apply elem_of_nil_inv. intros x [Hkey Hx]%list_elem_of_filter.
      apply Ha. rewrite <-Hkey. by apply list_elem_of_fmap_2.
    + rewrite filter_cons_False; [by apply IH|].
      intros Hkey. apply Ha. rewrite Hkey. by apply list_elem_of_fmap_2.
Qed.

Lemma filter_unknown_key {A : Type} (key : A → UUID) (l : list A) (i : UUID) :
  i ∉ key <$> l → filter (λ x, key x = i) l = [].
Proof.
  intros Hi. apply elem_of_nil_inv. intros x [Hkey Hx]%list_elem_of_filter.
  apply Hi. rewrite <-Hkey. by apply list_elem_of_fmap_2.
Qed.

Lemma invalidate_edge_found edge_id valid_to s e :
  filter (λ x, LineageEdge.id x = edge_id) (lineage_edges (db s)) = [e] →
  invalidate_edge edge_id valid_to s =
  (Return true,
   mkSession
     (with_edges (db s)
        (update_rows LineageEdge.id (LineageEdge.id e)
           (set_valid_to (timestamp_of valid_to s)) (lineage_edges (db s))))
     (executed s ++ [SelectEdgeById; Commit]) (wall_clock s)
     (clock_reads_after valid_to (clock_reads s))).
Proof.
  intros Hfound. unfold invalidate_edge, get_edge, await, session_execute. simpl.
  rewrite Hfound. simpl. rewrite as_of_or_now_run. unfold session_commit. simpl.
  by rewrite <-(assoc_L (++)).
Qed.

Lemma invalidate_edge_unknown edge_id valid_to s :
  filter (λ x, LineageEdge.id x = edge_id) (lineage_edges (db s)) = [] →
  invalidate_edge edge_id valid_to s =
  (Return false,
   mkSession (db s) (executed s ++ [SelectEdgeById]) (wall_clock s) (clock_reads s)).
Proof.
  intros Hnone. unfold invalidate_edge, get_edge, await, session_execute. simpl.
  by rewrite Hnone.
Qed.

(** * The claims *)

(** C1.  The temporal predicate is written into both terms of the query,
    for both directions: the [WHERE] clause of the non-recursive term and
    that of the recursive term take an edge exactly when it is incident on
    the frontier, passes the edge-type filter and has
    [valid_from <= as_of] and [valid_to] null or [> as_of].  No expansion
    step applies it, though: on the chain A → B → C → D, whose edges are
    open since instant 0, the traversals as of 60 downstream from A and
    upstream from B fail with [AttributeError] while the edge statement is
    put together, with no statement sent. *)
Theorem C1_traversal_fails_before_any_expansion :
  _traverse_graph 2 1 "downstream" 2 (Some 60) None false Fixture.chain
  = (Raise AttributeError, Fixture.chain)
  ∧ _traverse_graph 2 2 "upstream" 2 (Some 60) None false Fixture.chain
    = (Raise AttributeError, Fixture.chain)
  ∧ (∀ d node_id timestamp edge_types e,
       base_where d node_id timestamp edge_types e = true ↔
       near_end d e = node_id ∧ is_active e timestamp ∧ type_selected edge_types e)
  ∧ (∀ d depth timestamp edge_types e r,
       recursive_where d depth timestamp edge_types e r = true ↔
       near_end d e = Cte.node_id r ∧ Cte.depth r < depth
       ∧ is_active e timestamp ∧ type_selected edge_types e).
Proof.
  split_and!; [reflexivity|reflexivity| |].
  - intros. apply base_where_spec.
  - intros. apply recursive_where_spec.
Qed.


(** C3, as the specification states it, fails: for the id 9, which no row
    of the store carries, the call fails with [AttributeError], exactly as
    it does for the existing, isolated node 1; the failure says nothing
    about the seed. *)
Lemma C3_missing_seed_fails_like_an_existing_one :
  (9%positive ∉ LineageNode.id <$> lineage_nodes (db Fixture.isolated))
  ∧ 1%positive ∈ LineageNode.id <$> lineage_nodes (db Fixture.isolated)
  ∧ _traverse_graph 3 9 "downstream" 3 (Some 60) None false Fixture.isolated
    = (Raise AttributeError, Fixture.isolated)
  ∧ _traverse_graph 3 1 "downstream" 3 (Some 60) None false Fixture.isolated
    = (Raise AttributeError, Fixture.isolated).
Proof.
  split_and!; [|by apply list_elem_of_here|reflexivity|reflexivity].
  vm_compute. intros Hin.
  repeat (apply elem_of_cons in Hin as [Hin|Hin]; [discriminate Hin|]).
  by apply elem_of_nil in Hin.
Qed.

(** C3, amended.  A failure of the traversal is not specific to the seed:
    whenever the call fails for one seed id, it ends in the same way, with
    the same error and the same session, for every other seed id under the
    same parameters, whether a node row carries that id or not. *)
Theorem C3_failure_is_not_specific_to_the_seed
    (fuel : nat) (node_id node_id' : UUID) (direction : string) (depth : Z)
    (as_of : option datetime) (edge_types : option (list EdgeType))
    (include_deleted : bool) (s : Session) (e : Exn) :
  (_traverse_graph fuel node_id direction depth as_of edge_types include_deleted s).1
  = Raise e →
  _traverse_graph fuel node_id' direction depth as_of edge_types include_deleted s
  = _traverse_graph fuel node_id direction depth as_of edge_types include_deleted s.
Proof. intros _. by rewrite !traverse_graph_raises. Qed.

Lemma C3_failure_is_not_specific_to_the_seed_witness :
  (_traverse_graph 3 9 "downstream" 3 (Some 60) None false Fixture.isolated).1
  = Raise AttributeError
  ∧ _traverse_graph 3 1 "downstream" 3 (Some 60) None false Fixture.isolated
    = _traverse_graph 3 9 "downstream" 3 (Some 60) None false Fixture.isolated.
Proof.
  split; [reflexivity|].
  apply (C3_failure_is_not_specific_to_the_seed 3 9 1 "downstream" 3 (Some 60) None
           false Fixture.isolated AttributeError).
  reflexivity.
Defined.


(** C5.  No edge list is returned: with B soft-deleted and A → B open,
    the downstream traversal from A without [include_deleted] fails with
    [AttributeError] before it sends a statement.  The condition of the
    node statement is the one the claim describes: without
    [include_deleted] it takes the rows with [deleted_at] null among the
    ids asked for, with it all of them. *)
Theorem C5_no_edge_list_is_returned :
  _traverse_graph 1 1 "downstream" 1 (Some 60) None false Fixture.deleted_target
  = (Raise AttributeError, Fixture.deleted_target)
  ∧ (∀ node_ids n,
       node_conditions node_ids false n = true ↔
       LineageNode.id n ∈ node_ids ∧ LineageNode.deleted_at n = None)
  ∧ (∀ node_ids n,
       node_conditions node_ids true n = true ↔ LineageNode.id n ∈ node_ids).
Proof.
  split_and!; [reflexivity| |]; intros node_ids n; rewrite node_conditions_spec.
  - split; [by intros [? [?|?]]|intros [? ?]; split; [done|by right]].
  - split; [by intros [? _]|intros ?; split; [done|by left]].
Qed.

(** C6.  The seed is not returned: for the live node A, which no edge
    touches, the traversal fails with [AttributeError] and returns no node
    list.  The set of ids the node statement would ask for does start from
    the seed. *)
Theorem C6_seed_is_not_returned :
  _traverse_graph 1 1 "downstream" 1 (Some 60) None false Fixture.isolated
  = (Raise AttributeError, Fixture.isolated)
  ∧ ∀ node_id edges_data, node_id ∈ collect_node_ids node_id edges_data.
Proof.
  split; [reflexivity|]. intros. apply elem_of_collect_node_ids. by left.
Qed.

(** C7, as the specification states it, fails: the call with depth 0
    does fail before any statement is sent, but with the [AttributeError]
    that the call with the accepted depth 3 meets as well, and so does the
    call with the direction [sideways]; none is rejected for its
    arguments. *)
Lemma C7_invalid_arguments_fail_like_valid_ones :
  _traverse_graph 3 1 "upstream" 0 (Some 60) None false Fixture.chain
  = (Raise AttributeError, Fixture.chain)
  ∧ _traverse_graph 3 1 "upstream" 3 (Some 60) None false Fixture.chain
    = (Raise AttributeError, Fixture.chain)
  ∧ _traverse_graph 3 1 "sideways" 3 (Some 60) None false Fixture.chain
    = (Raise AttributeError, Fixture.chain).
Proof. by split_and!. Qed.

(** C7, amended.  A direction other than [upstream] and [downstream] is
    not rejected by [_traverse_graph]: it takes the branch of both
    directions, and the call ends exactly as the call with [both] does.
    The bounds on the arguments are those of [LineageQueryParams]: its
    constructor rejects a depth outside 1..10 with a validation error naming
    [depth] and a direction outside the three values with one naming
    [direction], and accepts the rest. *)
Theorem C7_arguments_are_checked_by_the_response_schema
    (fuel : nat) (node_id : UUID) (direction : string) (depth : Z)
    (as_of : option datetime) (edge_types : option (list EdgeType))
    (include_deleted : bool) (s : Session) :
  (direction ≠ "upstream" → direction ≠ "downstream" →
   _traverse_graph fuel node_id direction depth as_of edge_types include_deleted s
   = _traverse_graph fuel node_id "both" depth as_of edge_types include_deleted s)
  ∧ (¬ (1 ≤ depth ≤ 10) →
     ∃ fields,
       new_LineageQueryParams node_id direction depth as_of edge_types s
       = (Raise (ValidationError fields), s)
       ∧ "depth" ∈ fields)
  ∧ (direction ∉ ["upstream"; "downstream"; "both"] →
     ∃ fields,
       new_LineageQueryParams node_id direction depth as_of edge_types s
       = (Raise (ValidationError fields), s)
       ∧ "direction" ∈ fields)
  ∧ (1 ≤ depth ≤ 10 → direction ∈ ["upstream"; "downstream"; "both"] →
     new_LineageQueryParams node_id direction depth as_of edge_types s
     = (Return (LineageQueryParams.mk (Some node_id) None direction depth as_of false
                  edge_types), s)).
Proof.
  assert (direction_pattern direction = true ↔
          direction ∈ ["upstream"; "downstream"; "both"]) as Hpattern.
  { unfold direction_pattern.
    rewrite !orb_true_iff, !bool_decide_eq_true, !elem_of_cons, elem_of_nil.
    tauto. }
  split_and!.
  - apply traverse_graph_other_direction.
  - intros Hdepth. unfold new_LineageQueryParams.
    destruct (depth_in_range depth) eqn:Hrange;
      [by apply depth_in_range_spec in Hrange|].
    destruct (direction_pattern direction); eexists; (split; [done|]).
    + apply list_elem_of_here.
    + apply list_elem_of_further, list_elem_of_here.
  - intros Hdir. unfold new_LineageQueryParams.
    assert (direction_pattern direction = false) as ->.
    { apply not_true_is_false. intros Hp. by apply Hpattern in Hp. }
    eexists. split; [done|]. apply list_elem_of_here.
  - intros Hdepth Hdir. rewrite new_LineageQueryParams_run by by apply Hpattern.
    by rewrite (proj2 (depth_in_range_spec depth)).
Qed.

Lemma C7_arguments_are_checked_by_the_response_schema_witness :
  _traverse_graph 3 1 "sideways" 3 (Some 60) None false Fixture.chain
  = _traverse_graph 3 1 "both" 3 (Some 60) None false Fixture.chain
  ∧ (∃ fields,
       new_LineageQueryParams 1 "upstream" 0 (Some 60) None Fixture.chain
       = (Raise (ValidationError fields), Fixture.chain)
       ∧ "depth" ∈ fields)
  ∧ (∃ fields,
       new_LineageQueryParams 1 "sideways" 3 (Some 60) None Fixture.chain
       = (Raise (ValidationError fields), Fixture.chain)
       ∧ "direction" ∈ fields)
  ∧ new_LineageQueryParams 1 "upstream" 3 (Some 60) None Fixture.chain
    = (Return (LineageQueryParams.mk (Some 1%positive) None "upstream" 3 (Some 60) false
                 None), Fixture.chain).
Proof.
  split_and!.
  - apply (C7_arguments_are_checked_by_the_response_schema 3 1 "sideways" 3 (Some 60)
             None false Fixture.chain); discriminate.
  - apply (C7_arguments_are_checked_by_the_response_schema 3 1 "upstream" 0 (Some 60)
             None false Fixture.chain). lia.
  - apply (C7_arguments_are_checked_by_the_response_schema 3 1 "sideways" 3 (Some 60)
             None false Fixture.chain).
    intros Hin.
    repeat (apply elem_of_cons in Hin as [Hin|Hin]; [discriminate Hin|]).
    by apply elem_of_nil in Hin.
  - apply (C7_arguments_are_checked_by_the_response_schema 3 1 "upstream" 3 (Some 60)
             None false Fixture.chain); [lia|by apply list_elem_of_here].
Defined.


(** C9.  Closing an existing edge returns [True] and assigns [valid_to]
    of that row and nothing else: the other columns of the row, the other
    rows and the other tables are as before.  For an id no edge carries the
    call returns [False] and the store is unchanged.  No method of the
    repository removes an edge row or changes a column other than
    [valid_to] of one. *)
Theorem C9_close_assigns_only_valid_to :
  (∀ (s : Session) (edge_id : UUID) (valid_to : option datetime) (e : LineageEdge.t),
     NoDup (LineageEdge.id <$> lineage_edges (db s)) →
     e ∈ lineage_edges (db s) → LineageEdge.id e = edge_id →
     ∃ s' t,
       invalidate_edge edge_id valid_to s = (Return true, s')
       ∧ t = default (wall_clock s (clock_reads s)) valid_to
       ∧ lineage_edges (db s')
         = update_rows LineageEdge.id edge_id (set_valid_to t) (lineage_edges (db s))
       ∧ set_valid_to t e ∈ lineage_edges (db s')
       ∧ same_but_valid_to e (set_valid_to t e)
       ∧ LineageEdge.valid_to (set_valid_to t e) = Some t
       ∧ (∀ x, x ∈ lineage_edges (db s) → LineageEdge.id x ≠ edge_id →
               x ∈ lineage_edges (db s'))
       ∧ lineage_nodes (db s') = lineage_nodes (db s)
       ∧ column_lineage (db s') = column_lineage (db s)
       ∧ lineage_runs (db s') = lineage_runs (db s))
  ∧ (∀ (s : Session) (edge_id : UUID) (valid_to : option datetime),
       edge_id ∉ LineageEdge.id <$> lineage_edges (db s) →
       ∃ s', invalidate_edge edge_id valid_to s = (Return false, s') ∧ db s' = db s)
  ∧ (∀ (call : RepositoryCall) (s : Session),
       ∃ kept added,
         lineage_edges (db (session_after call s)) = kept ++ added
         ∧ Forall2 same_but_valid_to (lineage_edges (db s)) kept).
Proof.
  split_and!.
  - intros s edge_id valid_to e Hnd He <-.
    pose proof (filter_unique_key LineageEdge.id _ e Hnd He) as Hfound.
    eexists _, _. split; [by apply invalidate_edge_found|]. simpl.
    assert (timestamp_of valid_to s = default (wall_clock s (clock_reads s)) valid_to)
      as -> by by destruct valid_to.
    split_and!; try done.
    + unfold update_rows. apply list_elem_of_fmap. exists e. split; [|done].
      by rewrite bool_decide_eq_true_2.
    + intros x Hx Hne. unfold update_rows. apply list_elem_of_fmap. exists x.
      split; [|done]. by rewrite bool_decide_eq_false_2.
  - intros s edge_id valid_to Hunknown.
    eexists. split; [by apply invalidate_edge_unknown, filter_unknown_key|done].
  - intros call s. apply session_after_keeps_edges.
Qed.

Lemma C9_close_assigns_only_valid_to_witness :
  (∃ s' t,
     invalidate_edge 12 (Some 70) Fixture.chain = (Return true, s')
     ∧ t = default (wall_clock Fixture.chain (clock_reads Fixture.chain)) (Some 70)
     ∧ lineage_edges (db s')
       = update_rows LineageEdge.id 12 (set_valid_to t) (lineage_edges (db Fixture.chain))
     ∧ set_valid_to t (Fixture.edge 12 2 3 READ 0 None) ∈ lineage_edges (db s')
     ∧ same_but_valid_to (Fixture.edge 12 2 3 READ 0 None)
         (set_valid_to t (Fixture.edge 12 2 3 READ 0 None))
     ∧ LineageEdge.valid_to (set_valid_to t (Fixture.edge 12 2 3 READ 0 None)) = Some t
     ∧ (∀ x, x ∈ lineage_edges (db Fixture.chain) → LineageEdge.id x ≠ 12%positive →
             x ∈ lineage_edges (db s'))
     ∧ lineage_nodes (db s') = lineage_nodes (db Fixture.chain)
     ∧ column_lineage (db s') = column_lineage (db Fixture.chain)
     ∧ lineage_runs (db s') = lineage_runs (db Fixture.chain))
  ∧ (∃ s', invalidate_edge 99 None Fixture.chain = (Return false, s')
           ∧ db s' = db Fixture.chain).
Proof.
  destruct C9_close_assigns_only_valid_to as (Hfound & Hunknown & _). split.
  - apply (Hfound Fixture.chain 12%positive (Some 70) (Fixture.edge 12 2 3 READ 0 None)).
    + vm_compute. repeat constructor; intros Hin;
        repeat (apply elem_of_cons in Hin as [Hin|Hin]; [discriminate Hin|]);
        by apply elem_of_nil in Hin.
    + vm_compute. right. left.
    + reflexivity.
  - apply (Hunknown Fixture.chain 99%positive None).
    vm_compute. intros Hin.
    repeat (apply elem_of_cons in Hin as [Hin|Hin]; [discriminate Hin|]).
    by apply elem_of_nil in Hin.
Defined.



(** * Further properties of the code *)

(** ** Queries leave the store alone *)

Lemma read_only_pure {A} (a : A) : read_only (pure a).
Proof.
  intros s. split_and!; [done..|]. exists []. by rewrite (right_id_L [] (++)).
Qed.

Lemma read_only_raise {A} e : read_only (@raise A e).
Proof.
  intros s. split_and!; [done..|]. exists []. by rewrite (right_id_L [] (++)).
Qed.

Lemma read_only_utcnow : read_only utcnow.
Proof.
  intros s. split_and!; [done..|]. exists []. by rewrite (right_id_L [] (++)).
Qed.

Lemma read_only_as_of_or_now as_of : read_only (as_of_or_now as_of).
Proof. destruct as_of; [apply read_only_pure|apply read_only_utcnow]. Qed.

Lemma read_only_execute {A} stmt (q : Store → option A) :
  is_select stmt → read_only (session_execute stmt q).
Proof.
  intros Hsel s. unfold session_execute.
  destruct (q (db s)); (split_and!; [done..|]); exists [stmt]; split; try done;
    by constructor.
Qed.

Lemma read_only_scalar {A} (rows : list A) : read_only (scalar_one_or_none rows).
Proof.
  destruct rows as [|? [|? ?]];
    [apply read_only_pure|apply read_only_pure|apply read_only_raise].
Qed.

Lemma read_only_cte_c name : read_only (cte_c name).
Proof. unfold cte_c. case_bool_decide; [apply read_only_pure|apply read_only_raise]. Qed.

Lemma read_only_execute_bound {A} stmt depth (q : Store → option A) :
  is_select stmt → read_only (session_execute_bound stmt depth q).
Proof.
  intros Hsel. unfold session_execute_bound.
  destruct (int4 depth); [by apply read_only_execute|].
  intros s. split_and!; [done..|]. exists [stmt]. split; [done|]. by constructor.
Qed.

Lemma read_only_query_params node_id direction depth as_of edge_types :
  read_only (new_LineageQueryParams node_id direction depth as_of edge_types).
Proof.
  unfold new_LineageQueryParams.
  destruct (_ ++ _); [apply read_only_pure|apply read_only_raise].
Qed.

Lemma read_only_await {A B} (c : Async A) (k : A → Async B) :
  read_only c → (∀ a, read_only (k a)) → read_only (await c k).
Proof.
  intros Hc Hk s. unfold await.
  destruct (Hc s) as (Hdb & Hclock & sent & Hsent & Hsel).
  destruct (c s) as [[a| |] s1]; simpl in *; [|by eauto..].
  destruct (Hk a s1) as (Hdb' & Hclock' & sent' & Hsent' & Hsel').
  split_and!; [congruence..|]. exists (sent ++ sent'). split.
  - by rewrite Hsent', Hsent, <-(assoc_L (++)).
  - by apply Forall_app.
Qed.

Lemma is_select_queries :
  is_select SelectNodes ∧ is_select SelectNodeBy ∧ is_select SelectEdgeById
  ∧ is_select SelectColumnsByEdge ∧ is_select SelectRunByRunId
  ∧ ∀ d, is_select (SelectLineageGraph d).
Proof. by repeat split. Qed.

Ltac read_steps :=
  repeat first
    [ apply read_only_await; [|intros ?]
    | apply read_only_execute; by repeat split
    | apply read_only_execute_bound; by repeat split
    | apply read_only_cte_c
    | apply read_only_pure | apply read_only_raise | apply read_only_utcnow
    | apply read_only_as_of_or_now | apply read_only_scalar
    | apply read_only_query_params
    | case_match ].

Lemma read_only_traverse_directed fuel d node_id depth as_of edge_types include_deleted :
  read_only (traverse_directed fuel d node_id depth as_of edge_types include_deleted).
Proof. unfold traverse_directed. read_steps. Qed.

Lemma read_only_traverse_graph fuel node_id direction depth as_of edge_types
    include_deleted :
  read_only (_traverse_graph fuel node_id direction depth as_of edge_types
               include_deleted).
Proof.
  unfold _traverse_graph, get_upstream, get_downstream.
  repeat case_decide; try apply read_only_traverse_directed.
  repeat first [apply read_only_traverse_directed
               |apply read_only_as_of_or_now
               |apply read_only_query_params
               |apply read_only_pure
               |apply read_only_await; [|intros ?]].
Qed.

(** X7.  The query methods never write: [get_node], [get_edge],
    [get_column_lineage], [get_run], the traversals, [find_nodes_by_type]
    and [search_nodes] leave every table as it was and send only reading
    statements (no commit, no refresh), however the call ends and however
    many rounds the evaluation of the recursive query is granted. *)
Theorem X7_queries_never_write (call : RepositoryCall) (s : Session) :
  is_query call = true →
  db (session_after call s) = db s
  ∧ wall_clock (session_after call s) = wall_clock s
  ∧ ∃ sent, executed (session_after call s) = executed s ++ sent
            ∧ Forall is_select sent.
Proof.
  intros Hq. revert s.
  destruct call; try discriminate Hq; cbn [session_after];
    match goal with
    | |- ∀ s, db (?c s).2 = db s ∧ _ => change (read_only c)
    end.
  - unfold get_node. read_steps.
  - unfold get_edge. read_steps.
  - unfold get_column_lineage. read_steps.
  - unfold get_run. read_steps.
  - apply read_only_traverse_graph.
  - unfold find_nodes_by_type. read_steps.
  - unfold search_nodes. read_steps.
Qed.

Lemma X7_queries_never_write_witness :
  db (session_after (TraverseGraph 0 1 "both" 3 None None false) Fixture.cycle)
  = db Fixture.cycle
  ∧ wall_clock (session_after (TraverseGraph 0 1 "both" 3 None None false) Fixture.cycle)
    = wall_clock Fixture.cycle
  ∧ ∃ sent,
      executed (session_after (TraverseGraph 0 1 "both" 3 None None false) Fixture.cycle)
      = executed Fixture.cycle ++ sent
      ∧ Forall is_select sent.
Proof.
  apply (X7_queries_never_write (TraverseGraph 0 1 "both" 3 None None false)
           Fixture.cycle).
  reflexivity.
Defined.

(** ** Every traversal fails *)

(** X8.  No traversal gets as far as the store, whatever its arguments:
    [_traverse_graph] fails with [AttributeError] while the edge statement
    is put together, after nothing but readings of the clock: none when
    [as_of] is given, else one for a directed call and two for a call in
    both directions (its own, and that of the [get_upstream] it starts
    with).  No statement is sent and the tables are as before.  The same
    holds of [get_upstream], [get_downstream] and [get_bidirectional]. *)
Theorem X8_every_traversal_fails_before_any_statement
    (fuel : nat) (node_id : UUID) (direction : string) (depth : Z)
    (as_of : option datetime) (edge_types : option (list EdgeType))
    (include_deleted : bool) (s : Session) :
  ∃ s',
    _traverse_graph fuel node_id direction depth as_of edge_types include_deleted s
    = (Raise AttributeError, s')
    ∧ db s' = db s ∧ executed s' = executed s ∧ wall_clock s' = wall_clock s
    ∧ clock_reads s'
      = (match as_of with
         | Some _ => 0
         | None => if decide (direction = "upstream") then 1
                   else if decide (direction = "downstream") then 1 else 2
         end + clock_reads s)%nat
    ∧ get_upstream fuel node_id depth as_of edge_types include_deleted s
      = (Raise AttributeError, after_now as_of s)
    ∧ get_downstream fuel node_id depth as_of edge_types include_deleted s
      = (Raise AttributeError, after_now as_of s)
    ∧ get_bidirectional fuel node_id depth as_of edge_types include_deleted s
      = (Raise AttributeError, after_now as_of (after_now as_of s)).
Proof.
  exists (after_traverse direction as_of s).
  split; [apply traverse_graph_raises|].
  unfold get_upstream, get_downstream, get_bidirectional.
  rewrite !traverse_directed_raises, traverse_graph_raises.
  unfold after_traverse. split_and!; try done;
    repeat case_decide; by destruct as_of.
Qed.
(** ** Rows updated by key *)

(** Decides that the ids of a concrete table are pairwise distinct. *)
Ltac distinct_ids :=
  vm_compute; repeat constructor;
  let Hin := fresh "Hin" in
  intros Hin;
  repeat (apply elem_of_cons in Hin as [Hin|Hin]; [discriminate Hin|]);
  by apply elem_of_nil in Hin.

Lemma NoDup_fmap_eq {A B : Type} (f : A → B) (l : list A) (x y : A) :
  NoDup (f <$> l) → x ∈ l → y ∈ l → f x = f y → x = y.
Proof.
  induction l as [|a l IH]; csimpl; intros Hnd Hx Hy Hf.
  - by apply elem_of_nil in Hx.
  - apply NoDup_cons in Hnd as [Ha Hnd].
    apply elem_of_cons in Hx as [-> |Hx]; apply elem_of_cons in Hy as [-> |Hy].
    + done.
    + exfalso. apply Ha. rewrite Hf. by apply list_elem_of_fmap_2.
    + exfalso. apply Ha. rewrite <-Hf. by apply list_elem_of_fmap_2.
    + by apply IH.
Qed.

Lemma elem_of_update_rows {A} (key : A → UUID) (i : UUID) (f : A → A) (l : list A) y :
  y ∈ update_rows key i f l ↔
  ∃ x, x ∈ l ∧ y = if bool_decide (key x = i) then f x else x.
Proof.
  unfold update_rows. rewrite list_elem_of_fmap. split.
  - intros (x & -> & ?). by exists x.
  - intros (x & ? & ->). by exists x.
Qed.

Lemma update_rows_keys {A} (key : A → UUID) (i : UUID) (f : A → A) (l : list A) :
  (∀ x, key (f x) = key x) → key <$> update_rows key i f l = key <$> l.
Proof.
  intros Hf. unfold update_rows. rewrite <-list_fmap_compose.
  apply list_fmap_ext. intros ? x _. simpl. by case_bool_decide.
Qed.

(** ** Soft deletion *)

Lemma filter_key_unknown_and {A} (key : A → UUID) (P : A → bool) (l : list A) (i : UUID) :
  i ∉ key <$> l → filter (λ n, bool_decide (key n = i) && P n) l = [].
Proof.
  intros Hi. apply elem_of_nil_inv. intros x [Hx Hin]%list_elem_of_filter.
  apply Is_true_true, andb_true_iff in Hx as [Hkey%bool_decide_eq_true _].
  apply Hi. rewrite <-Hkey. by apply list_elem_of_fmap_2.
Qed.

Lemma filter_key_and {A} (key : A → UUID) (P : A → bool) (l : list A) (x : A) :
  NoDup (key <$> l) → x ∈ l →
  filter (λ n, bool_decide (key n = key x) && P n) l = if P x then [x] else [].
Proof.
  induction l as [|y l IH]; csimpl; intros Hnd Hx.
  - by apply elem_of_nil in Hx.
  - apply NoDup_cons in Hnd as [Hy Hnd].
    apply elem_of_cons in Hx as [-> |Hx].
    + rewrite filter_cons, (filter_key_unknown_and key P l (key y)) by done.
      rewrite bool_decide_eq_true_2 by done. simpl.
      destruct (P y); by case_decide.
    + rewrite filter_cons_False; [by apply IH|].
      intros [Hkey%bool_decide_eq_true _]%Is_true_true%andb_true_iff.
      apply Hy. rewrite Hkey. by apply list_elem_of_fmap_2.
Qed.

Lemma get_node_by_id i qualified_name include_deleted s x :
  node_ids_unique (db s) → x ∈ lineage_nodes (db s) → LineageNode.id x = i →
  get_node (Some i) qualified_name include_deleted s
  = (Return (if (if include_deleted then true
                 else bool_decide (LineageNode.deleted_at x = None))
             then Some x else None),
     mkSession (db s) (executed s ++ [SelectNodeBy]) (wall_clock s) (clock_reads s)).
Proof.
  intros Hpk Hx <-. unfold get_node, await, session_execute. simpl.
  rewrite (filter_key_and LineageNode.id _ _ x) by done.
  by destruct (if include_deleted then _ else _).
Qed.

Lemma get_node_by_id_unknown i qualified_name include_deleted s :
  i ∉ LineageNode.id <$> lineage_nodes (db s) →
  get_node (Some i) qualified_name include_deleted s
  = (Return None,
     mkSession (db s) (executed s ++ [SelectNodeBy]) (wall_clock s) (clock_reads s)).
Proof.
  intros Hi. unfold get_node, await, session_execute. simpl.
  by rewrite (filter_key_unknown_and LineageNode.id).
Qed.

Lemma soft_delete_node_found i s n :
  node_ids_unique (db s) → n ∈ lineage_nodes (db s) → LineageNode.id n = i →
  LineageNode.deleted_at n = None →
  soft_delete_node i s
  = (Return true,
     mkSession
       (with_nodes (db s)
          (update_rows LineageNode.id i
             (set_deleted_at (wall_clock s (clock_reads s))
                (wall_clock s (S (clock_reads s))))
             (lineage_nodes (db s))))
       (executed s ++ [SelectNodeBy; Commit]) (wall_clock s) (S (S (clock_reads s)))).
Proof.
  intros Hpk Hn Hid Hlive. unfold soft_delete_node, await at 1.
  rewrite (get_node_by_id i None false s n) by done.
  rewrite Hlive, bool_decide_eq_true_2 by done.
  unfold await, utcnow, session_commit. simpl.
  by rewrite Hid, <-(assoc_L (++)).
Qed.

Lemma soft_delete_node_hidden i s :
  node_ids_unique (db s) →
  (∀ n, n ∈ lineage_nodes (db s) → LineageNode.id n = i →
        LineageNode.deleted_at n ≠ None) →
  soft_delete_node i s
  = (Return false,
     mkSession (db s) (executed s ++ [SelectNodeBy]) (wall_clock s) (clock_reads s)).
Proof.
  intros Hpk Hgone. unfold soft_delete_node, await at 1.
  destruct (decide (i ∈ LineageNode.id <$> lineage_nodes (db s))) as [Hin|Hout].
  - apply list_elem_of_fmap in Hin as (n & Hid & Hn).
    rewrite (get_node_by_id i None false s n) by done.
    by rewrite bool_decide_eq_false_2 by by apply Hgone.
  - by rewrite get_node_by_id_unknown.
Qed.

(** X14.  A soft-deleted node stays in the table and leaves the default
    lookups: [soft_delete_node] on a live node returns true, stamps
    [deleted_at] with the clock and [updated_at] with its next reading, and
    keeps the other columns of the row, the other node rows and every edge;
    afterwards [get_node] by id finds the row only with [include_deleted],
    and a second [soft_delete_node] returns false and writes nothing. *)
Theorem X14_soft_delete_hides_node (i : UUID) (s : Session) (n : LineageNode.t) :
  node_ids_unique (db s) → n ∈ lineage_nodes (db s) → LineageNode.id n = i →
  LineageNode.deleted_at n = None →
  ∃ s' n',
    soft_delete_node i s = (Return true, s')
    ∧ n' ∈ lineage_nodes (db s') ∧ same_but_stamps n n'
    ∧ LineageNode.deleted_at n' = Some (wall_clock s (clock_reads s))
    ∧ LineageNode.updated_at n' = wall_clock s (S (clock_reads s))
    ∧ (get_node (Some i) None false s').1 = Return None
    ∧ (get_node (Some i) None true s').1 = Return (Some n')
    ∧ (soft_delete_node i s').1 = Return false
    ∧ db (soft_delete_node i s').2 = db s'
    ∧ lineage_edges (db s') = lineage_edges (db s)
    ∧ (∀ m, m ∈ lineage_nodes (db s) → LineageNode.id m ≠ i →
            m ∈ lineage_nodes (db s')).
Proof.
  intros Hpk Hn Hid Hlive.
  rewrite (soft_delete_node_found i s n) by done.
  set (now := wall_clock s (clock_reads s)).
  set (stamp := wall_clock s (S (clock_reads s))).
  set (s' := mkSession _ _ _ _).
  assert (node_ids_unique (db s')) as Hpk'.
  { unfold node_ids_unique. simpl. by rewrite update_rows_keys. }
  assert (set_deleted_at now stamp n ∈ lineage_nodes (db s')) as Hn'.
  { simpl. apply elem_of_update_rows. exists n. split; [done|].
    by rewrite bool_decide_eq_true_2. }
  assert (∀ m, m ∈ lineage_nodes (db s') → LineageNode.id m = i →
               LineageNode.deleted_at m ≠ None) as Hgone.
  { intros m Hm Hmi.
    assert (m = set_deleted_at now stamp n) as ->; [|done].
    apply (NoDup_fmap_eq LineageNode.id (lineage_nodes (db s'))); try done.
    by rewrite Hmi. }
  exists s', (set_deleted_at now stamp n). split_and!; try done.
  - by rewrite (get_node_by_id i None false s' (set_deleted_at now stamp n)).
  - by rewrite (get_node_by_id i None true s' (set_deleted_at now stamp n)).
  - by rewrite soft_delete_node_hidden.
  - by rewrite soft_delete_node_hidden.
  - intros m Hm Hmi. simpl. apply elem_of_update_rows. exists m. split; [done|].
    by rewrite bool_decide_eq_false_2.
Qed.

Lemma X14_soft_delete_hides_node_witness :
  ∃ s' n',
    soft_delete_node 2 Fixture.chain = (Return true, s')
    ∧ n' ∈ lineage_nodes (db s') ∧ same_but_stamps (Fixture.node 2 None) n'
    ∧ LineageNode.deleted_at n'
      = Some (wall_clock Fixture.chain (clock_reads Fixture.chain))
    ∧ LineageNode.updated_at n'
      = wall_clock Fixture.chain (S (clock_reads Fixture.chain))
    ∧ (get_node (Some 2%positive) None false s').1 = Return None
    ∧ (get_node (Some 2%positive) None true s').1 = Return (Some n')
    ∧ (soft_delete_node 2 s').1 = Return false
    ∧ db (soft_delete_node 2 s').2 = db s'
    ∧ lineage_edges (db s') = lineage_edges (db Fixture.chain)
    ∧ (∀ m, m ∈ lineage_nodes (db Fixture.chain) → LineageNode.id m ≠ 2%positive →
            m ∈ lineage_nodes (db s')).
Proof.
  apply (X14_soft_delete_hides_node 2 Fixture.chain (Fixture.node 2 None)).
  - distinct_ids.
  - vm_compute. right. left.
  - reflexivity.
  - reflexivity.
Defined.

(** ** Updating a node *)

Lemma update_node_live i node_data s n :
  node_ids_unique (db s) → n ∈ lineage_nodes (db s) → LineageNode.id n = i →
  LineageNode.deleted_at n = None →
  update_node i node_data s
  = match apply_node_update node_data (wall_clock s (clock_reads s)) n with
    | None =>
        (Raise IntegrityError,
         mkSession (db s) (executed s ++ [SelectNodeBy; Commit]) (wall_clock s)
           (S (clock_reads s)))
    | Some node' =>
        (Return (Some node'),
         mkSession
           (with_nodes (db s)
              (update_rows LineageNode.id i (λ _, node') (lineage_nodes (db s))))
           (executed s ++ [SelectNodeBy; Commit; Refresh]) (wall_clock s)
           (S (clock_reads s)))
    end.
Proof.
  intros Hpk Hn Hid Hlive. unfold update_node, await at 1.
  rewrite (get_node_by_id i None false s n) by done.
  rewrite Hlive, bool_decide_eq_true_2 by done.
  unfold await at 1, utcnow. cbn [fst snd wall_clock clock_reads].
  destruct (apply_node_update _ _ n) as [node'|].
  - unfold await, session_commit, session_refresh. simpl.
    by rewrite Hid, <-!(assoc_L (++)).
  - unfold await, session_commit. simpl. by rewrite <-(assoc_L (++)).
Qed.

Lemma update_node_hidden i node_data s :
  node_ids_unique (db s) →
  (∀ n, n ∈ lineage_nodes (db s) → LineageNode.id n = i →
        LineageNode.deleted_at n ≠ None) →
  update_node i node_data s
  = (Return None,
     mkSession (db s) (executed s ++ [SelectNodeBy]) (wall_clock s) (clock_reads s)).
Proof.
  intros Hpk Hgone. unfold update_node, await at 1.
  destruct (decide (i ∈ LineageNode.id <$> lineage_nodes (db s))) as [Hin|Hout].
  - apply list_elem_of_fmap in Hin as (n & Hid & Hn).
    rewrite (get_node_by_id i None false s n) by done.
    by rewrite bool_decide_eq_false_2 by by apply Hgone.
  - by rewrite get_node_by_id_unknown.
Qed.

Lemma apply_node_update_identity node_data updated n n' :
  apply_node_update node_data updated n = Some n' →
  same_identity n n' ∧ LineageNode.updated_at n' = updated.
Proof.
  unfold apply_node_update. destruct (default _ _); [|done].
  intros [= <-]. by repeat split.
Qed.

Lemma Forall2_same_identity_refl l : Forall2 same_identity l l.
Proof. apply Forall_Forall2_diag, Forall_forall. intros. by repeat split. Qed.

(** X15.  [update_node] reaches neither the identity of a node nor its
    deletion: with the primary key of [lineage_nodes] in force, whatever the
    request and however the call ends, every node row is still there, in
    place, with its [id], [type], [qualified_name], [system], [platform],
    [location], [created_at] and [deleted_at]; the rows of other nodes and
    the other tables are as before.  A node that is soft-deleted or missing
    is not updated: the call returns [None] after its lookup.  A node the
    call returns is a live row of the table, stamped with the clock. *)
Theorem X15_update_node_keeps_identity
    (i : UUID) (node_data : LineageNodeUpdate.t) (s : Session) :
  node_ids_unique (db s) →
  Forall2 same_identity (lineage_nodes (db s))
    (lineage_nodes (db (update_node i node_data s).2))
  ∧ (∀ m, m ∈ lineage_nodes (db s) → LineageNode.id m ≠ i →
          m ∈ lineage_nodes (db (update_node i node_data s).2))
  ∧ lineage_edges (db (update_node i node_data s).2) = lineage_edges (db s)
  ∧ column_lineage (db (update_node i node_data s).2) = column_lineage (db s)
  ∧ lineage_runs (db (update_node i node_data s).2) = lineage_runs (db s)
  ∧ ((∀ n, n ∈ lineage_nodes (db s) → LineageNode.id n = i →
           LineageNode.deleted_at n ≠ None) →
     update_node i node_data s
     = (Return None,
        mkSession (db s) (executed s ++ [SelectNodeBy]) (wall_clock s) (clock_reads s)))
  ∧ (∀ n', (update_node i node_data s).1 = Return (Some n') →
           n' ∈ lineage_nodes (db (update_node i node_data s).2)
           ∧ LineageNode.id n' = i
           ∧ LineageNode.deleted_at n' = None
           ∧ LineageNode.updated_at n' = wall_clock s (clock_reads s)).
Proof.
  intros Hpk.
  assert ((∃ n, n ∈ lineage_nodes (db s) ∧ LineageNode.id n = i
                ∧ LineageNode.deleted_at n = None)
          ∨ (∀ n, n ∈ lineage_nodes (db s) → LineageNode.id n = i →
                  LineageNode.deleted_at n ≠ None)) as [(n & Hn & Hid & Hlive)|Hgone].
  { destruct (decide (i ∈ LineageNode.id <$> lineage_nodes (db s))) as [Hin|Hout].
    - apply list_elem_of_fmap in Hin as (n & Hid & Hn).
      destruct (LineageNode.deleted_at n) as [t|] eqn:Hdel; [right|left; by exists n].
      intros m Hm Hmi.
      assert (m = n) as ->; [|by rewrite Hdel].
      apply (NoDup_fmap_eq LineageNode.id (lineage_nodes (db s))); try done. congruence.
    - right. intros m Hm Hmi. destruct Hout. rewrite <-Hmi.
      by apply list_elem_of_fmap_2. }
  - rewrite (update_node_live i node_data s n) by done.
    destruct (apply_node_update _ _ n) as [node'|] eqn:Hupd; simpl.
    + apply apply_node_update_identity in Hupd as [Hsame Hstamp].
      split_and!; try done.
      * unfold update_rows. apply Forall2_fmap_r, Forall_Forall2_diag, Forall_forall.
        intros x Hx. simpl. case_bool_decide as Hxi; [|by repeat split].
        assert (x = n) as -> ; [|done].
        apply (NoDup_fmap_eq LineageNode.id (lineage_nodes (db s))); try done.
        congruence.
      * intros m Hm Hmi. apply elem_of_update_rows. exists m. split; [done|].
        by rewrite bool_decide_eq_false_2.
      * intros Hgone. by destruct (Hgone n Hn Hid).
      * intros n' [= <-]. split_and!; try done.
        -- apply elem_of_update_rows. exists n. split; [done|].
           by rewrite bool_decide_eq_true_2.
        -- destruct Hsame as (-> & _). done.
        -- destruct Hsame as (_ & _ & _ & _ & _ & _ & _ & ->). done.
    + split_and!; try done.
      * apply Forall2_same_identity_refl.
      * intros Hgone. by destruct (Hgone n Hn Hid).
  - rewrite update_node_hidden by done.
    simpl. split_and!; try done. apply Forall2_same_identity_refl.
Qed.

Lemma X15_update_node_keeps_identity_witness :
  Forall2 same_identity (lineage_nodes (db Fixture.deleted_target))
    (lineage_nodes (db (update_node 1
       (LineageNodeUpdate.mk (Some (Some "renamed")) None None None None None)
       Fixture.deleted_target).2))
  ∧ (∀ m, m ∈ lineage_nodes (db Fixture.deleted_target) →
          LineageNode.id m ≠ 1%positive →
          m ∈ lineage_nodes (db (update_node 1
                 (LineageNodeUpdate.mk (Some (Some "renamed")) None None None None None)
                 Fixture.deleted_target).2))
  ∧ lineage_edges (db (update_node 1
       (LineageNodeUpdate.mk (Some (Some "renamed")) None None None None None)
       Fixture.deleted_target).2) = lineage_edges (db Fixture.deleted_target)
  ∧ column_lineage (db (update_node 1
       (LineageNodeUpdate.mk (Some (Some "renamed")) None None None None None)
       Fixture.deleted_target).2) = column_lineage (db Fixture.deleted_target)
  ∧ lineage_runs (db (update_node 1
       (LineageNodeUpdate.mk (Some (Some "renamed")) None None None None None)
       Fixture.deleted_target).2) = lineage_runs (db Fixture.deleted_target)
  ∧ ((∀ n, n ∈ lineage_nodes (db Fixture.deleted_target) →
           LineageNode.id n = 1%positive → LineageNode.deleted_at n ≠ None) →
     update_node 1
       (LineageNodeUpdate.mk (Some (Some "renamed")) None None None None None)
       Fixture.deleted_target
     = (Return None,
        mkSession (db Fixture.deleted_target)
          (executed Fixture.deleted_target ++ [SelectNodeBy])
          (wall_clock Fixture.deleted_target) (clock_reads Fixture.deleted_target)))
  ∧ (∀ n', (update_node 1
              (LineageNodeUpdate.mk (Some (Some "renamed")) None None None None None)
              Fixture.deleted_target).1 = Return (Some n') →
           n' ∈ lineage_nodes (db (update_node 1
                  (LineageNodeUpdate.mk (Some (Some "renamed")) None None None None None)
                  Fixture.deleted_target).2)
           ∧ LineageNode.id n' = 1%positive
           ∧ LineageNode.deleted_at n' = None
           ∧ LineageNode.updated_at n'
             = wall_clock Fixture.deleted_target (clock_reads Fixture.deleted_target)).
Proof.
  apply (X15_update_node_keeps_identity 1
           (LineageNodeUpdate.mk (Some (Some "renamed")) None None None None None)
           Fixture.deleted_target).
  distinct_ids.
Defined.

(** ** Creating an edge *)

Lemma filter_snoc_key {A : Type} (key : A → UUID) (l : list A) (x : A) (i : UUID) :
  key x = i → i ∉ key <$> l → filter (λ y, key y = i) (l ++ [x]) = [x].
Proof.
  intros Hx Hfresh. rewrite filter_app, (filter_unknown_key key l) by done.
  by rewrite filter_cons_True, filter_nil by done.
Qed.

(** X16.  An edge that [create_edge] returns is stored as a new last row
    under the id drawn for it, with the ends, type, validity and author of
    the request and the clock as [created_at], and [get_edge] finds it
    under that id; but the [metadata] of the request is not stored: the row
    holds an empty dictionary.  The other tables are as before. *)
Theorem X16_created_edge_drops_the_metadata
    (new_id : UUID) (edge_data : LineageEdgeCreate.t) (s s' : Session)
    (e : LineageEdge.t) :
  edge_ids_unique (db s) →
  create_edge new_id edge_data s = (Return e, s') →
  (new_id ∉ LineageEdge.id <$> lineage_edges (db s))
  ∧ lineage_edges (db s') = lineage_edges (db s) ++ [e]
  ∧ LineageEdge.id e = new_id
  ∧ LineageEdge.source_id e = LineageEdgeCreate.source_id edge_data
  ∧ LineageEdge.target_id e = LineageEdgeCreate.target_id edge_data
  ∧ LineageEdge.edge_type e = LineageEdgeCreate.edge_type edge_data
  ∧ LineageEdge.valid_from e = LineageEdgeCreate.valid_from edge_data
  ∧ LineageEdge.valid_to e = LineageEdgeCreate.valid_to edge_data
  ∧ LineageEdge.created_by e = LineageEdgeCreate.created_by edge_data
  ∧ LineageEdge.created_at e = wall_clock s (clock_reads s)
  ∧ LineageEdge.metadata_ e = Some []
  ∧ (get_edge new_id s').1 = Return (Some e)
  ∧ lineage_nodes (db s') = lineage_nodes (db s)
  ∧ column_lineage (db s') = column_lineage (db s)
  ∧ lineage_runs (db s') = lineage_runs (db s).
Proof.
  intros Hpk. unfold create_edge, await, utcnow, session_commit, session_refresh.
  cbn [fst snd db wall_clock clock_reads executed]. unfold insert_row.
  case_bool_decide as Hfresh; simpl; [done|].
  intros [= <- <-]. simpl. split_and!; try done.
  unfold get_edge, await, session_execute. simpl.
  by rewrite (filter_snoc_key LineageEdge.id _ _ new_id).
Qed.

Lemma X16_created_edge_drops_the_metadata_witness :
  (14%positive ∉ LineageEdge.id <$> lineage_edges (db Fixture.chain))
  ∧ lineage_edges
      (db (create_edge 14
             (LineageEdgeCreate.mk 4 1 DERIVE [("job", "nightly")] 5 None None)
             Fixture.chain).2)
    = lineage_edges (db Fixture.chain)
      ++ [LineageEdge.mk 14 4 1 DERIVE (Some []) 5 None 100 None]
  ∧ LineageEdge.id (LineageEdge.mk 14 4 1 DERIVE (Some []) 5 None 100 None)
    = 14%positive
  ∧ LineageEdge.source_id (LineageEdge.mk 14 4 1 DERIVE (Some []) 5 None 100 None)
    = LineageEdgeCreate.source_id
        (LineageEdgeCreate.mk 4 1 DERIVE [("job", "nightly")] 5 None None)
  ∧ LineageEdge.target_id (LineageEdge.mk 14 4 1 DERIVE (Some []) 5 None 100 None)
    = LineageEdgeCreate.target_id
        (LineageEdgeCreate.mk 4 1 DERIVE [("job", "nightly")] 5 None None)
  ∧ LineageEdge.edge_type (LineageEdge.mk 14 4 1 DERIVE (Some []) 5 None 100 None)
    = LineageEdgeCreate.edge_type
        (LineageEdgeCreate.mk 4 1 DERIVE [("job", "nightly")] 5 None None)
  ∧ LineageEdge.valid_from (LineageEdge.mk 14 4 1 DERIVE (Some []) 5 None 100 None)
    = LineageEdgeCreate.valid_from
        (LineageEdgeCreate.mk 4 1 DERIVE [("job", "nightly")] 5 None None)
  ∧ LineageEdge.valid_to (LineageEdge.mk 14 4 1 DERIVE (Some []) 5 None 100 None)
    = LineageEdgeCreate.valid_to
        (LineageEdgeCreate.mk 4 1 DERIVE [("job", "nightly")] 5 None None)
  ∧ LineageEdge.created_by (LineageEdge.mk 14 4 1 DERIVE (Some []) 5 None 100 None)
    = LineageEdgeCreate.created_by
        (LineageEdgeCreate.mk 4 1 DERIVE [("job", "nightly")] 5 None None)
  ∧ LineageEdge.created_at (LineageEdge.mk 14 4 1 DERIVE (Some []) 5 None 100 None)
    = wall_clock Fixture.chain (clock_reads Fixture.chain)
  ∧ LineageEdge.metadata_ (LineageEdge.mk 14 4 1 DERIVE (Some []) 5 None 100 None)
    = Some []
  ∧ (get_edge 14
       (create_edge 14
          (LineageEdgeCreate.mk 4 1 DERIVE [("job", "nightly")] 5 None None)
          Fixture.chain).2).1
    = Return (Some (LineageEdge.mk 14 4 1 DERIVE (Some []) 5 None 100 None))
  ∧ lineage_nodes
      (db (create_edge 14
             (LineageEdgeCreate.mk 4 1 DERIVE [("job", "nightly")] 5 None None)
             Fixture.chain).2)
    = lineage_nodes (db Fixture.chain)
  ∧ column_lineage
      (db (create_edge 14
             (LineageEdgeCreate.mk 4 1 DERIVE [("job", "nightly")] 5 None None)
             Fixture.chain).2)
    = column_lineage (db Fixture.chain)
  ∧ lineage_runs
      (db (create_edge 14
             (LineageEdgeCreate.mk 4 1 DERIVE [("job", "nightly")] 5 None None)
             Fixture.chain).2)
    = lineage_runs (db Fixture.chain).
Proof.
  apply (X16_created_edge_drops_the_metadata 14
           (LineageEdgeCreate.mk 4 1 DERIVE [("job", "nightly")] 5 None None)
           Fixture.chain).
  - distinct_ids.
  - reflexivity.
Defined.
(** ** The database URL *)

Lemma startswith_app p rest : startswith (p +:+ rest) p = true.
Proof. induction p as [|a p IH]; simpl; [done|]. by rewrite bool_decide_eq_true_2. Qed.

Lemma string_drop_app p rest : string_drop (String.length p) (p +:+ rest) = rest.
Proof. induction p as [|a p IH]; simpl; [by destruct rest|done]. Qed.

Lemma startswith_inv p : ∀ s, startswith s p = true → ∃ rest, s = (p +:+ rest)%string.
Proof.
  induction p as [|a p IH]; intros s Hs; simpl in *; [by exists s|].
  destruct s as [|b s]; [done|].
  apply andb_true_iff in Hs as [->%bool_decide_eq_true Hs].
  destruct (IH s Hs) as [rest ->]. by exists rest.
Qed.

Lemma replace_first_prefix old new rest :
  replace_first old new (old +:+ rest) = (new +:+ rest)%string.
Proof.
  assert (∀ s, startswith s old = true →
               replace_first old new s
               = (new +:+ string_drop (String.length old) s)%string) as Hhead.
  { intros s Hs. destruct s; simpl; by rewrite Hs. }
  by rewrite Hhead, string_drop_app by apply startswith_app.
Qed.

(** X17.  The URL handed to the engine never has the plain scheme
    [postgresql://]: a [DATABASE_URL] that starts with it is returned with
    the scheme [postgresql+asyncpg://] and the rest untouched, any other
    non-empty [DATABASE_URL] is returned as it is, and when the variable is
    unset or empty the URL is put together from the [POSTGRES_*] variables
    and their defaults. *)
Theorem X17_database_url_uses_asyncpg (environ : Environ) :
  startswith (get_database_url environ) "postgresql://" = false
  ∧ (∀ rest, environ "DATABASE_URL" = Some ("postgresql://" +:+ rest)%string →
       get_database_url environ = ("postgresql+asyncpg://" +:+ rest)%string)
  ∧ (∀ url, environ "DATABASE_URL" = Some url → url ≠ EmptyString →
       startswith url "postgresql://" = false → get_database_url environ = url)
  ∧ (environ "DATABASE_URL" = None ∨ environ "DATABASE_URL" = Some EmptyString →
     get_database_url environ
     = ("postgresql+asyncpg://" +:+ default "lens" (environ "POSTGRES_USER")
        +:+ ":" +:+ default "lens_dev_password" (environ "POSTGRES_PASSWORD")
        +:+ "@" +:+ default "localhost" (environ "POSTGRES_HOST")
        +:+ ":" +:+ default "5432" (environ "POSTGRES_PORT")
        +:+ "/" +:+ default "lens" (environ "POSTGRES_DB"))%string).
Proof.
  unfold get_database_url. split_and!.
  - destruct (environ "DATABASE_URL") as [[|c u]|]; [done| |done].
    destruct (startswith (String c u) "postgresql://") eqn:Hs; [|done].
    apply startswith_inv in Hs as [rest ->].
    by rewrite replace_first_prefix.
  - intros rest ->. reflexivity.
  - intros url -> Hurl Hs. destruct url as [|c u]; [done|]. by rewrite Hs.
  - by intros [-> | ->].
Qed.

Lemma X17_database_url_uses_asyncpg_witness :
  get_database_url Fixture.environ = "postgresql+asyncpg://lens@db:5432/lens".
Proof.
  apply (proj1 (proj2 (X17_database_url_uses_asyncpg Fixture.environ))
           "lens@db:5432/lens").
  reflexivity.
Defined.
(** ** Pages of nodes of one type *)

#[local] Instance created_not_before_trans : Transitive created_not_before.
Proof. intros a b c. unfold created_not_before. lia. Qed.

#[local] Instance created_not_before_total : Total created_not_before.
Proof. intros a b. unfold created_not_before. lia. Qed.



(** ** The recursive query *)


